(** * Monitoring shims of the backend: redaction filters and telemetry adapter

    A shallow embedding of the two monitoring modules of the API backend,

      - [src/api/src/lib/monitoring/sentry.py]        (module [Sentry]),
      - [src/api/src/lib/monitoring/app_insights.py]  (module [AppInsights]),

    and of the fragment of Python they are written in (module [Py]).

    Python values are dynamically typed: an event is a [Dict[str, Any]], so
    the embedding keeps a universal [value] type and every primitive the
    source applies to such a value ([in], subscripting, [pop], [get],
    [replace], [keys]) is a total function into an error monad that raises
    the exception Python raises on a value of the wrong kind.

    Conventions.
      - A Python [str] is a Rocq [string] read as a sequence of code points
        below 256; [lower] is [str.lower] on that range.
      - A [dict] with string keys is a [gmap string value]: equality of
        maps is equality of their lookups, which is Python's [==] on dicts.
      - The filters mutate the dictionaries they are handed and return the
        same object. A record is a tree (no mapping is reachable along two
        paths), so a mutation through a local name ([headers.pop(...)]) is
        embedded as the update of the enclosing mapping at that key, and
        "the record after a pass" is the content of that object then.
      - The adapter runs in a [world]: the environment, the module globals,
        the logger of the module, the clock, and the calls that left the
        module towards the vendor SDK. Of the SDK itself the embedding keeps
        what decides whether a call of this module returns: the setup calls
        and the calls on the error tracker return or raise as an oracle
        says, [measure_float_put] compares its argument with a number, and
        the exporters have no attribute [queue]. *)

From Stdlib Require Import ZArith String Ascii List Bool.
From Stdlib Require Import Floats.PrimFloat.
From stdpp Require Import gmap strings list fin_maps.

Local Open Scope string_scope.

(* ===================================================================== *)
(** * Part I: definitions                                                *)
(* ===================================================================== *)

(** ** The Python fragment *)
Module Py.

(** *** Strings *)

(** [s.startswith(p)]. *)
Fixpoint startswith (p s : string) : bool :=
  match p, s with
  | EmptyString, _ => true
  | String _ _, EmptyString => false
  | String a p', String b s' => Ascii.eqb a b && startswith p' s'
  end.

(** [needle in hay] on two strings. *)
Fixpoint contains (needle hay : string) : bool :=
  startswith needle hay ||
  match hay with
  | EmptyString => false
  | String _ rest => contains needle rest
  end.

(** [new.join(list(s))] bracketed by [new]: what [s.replace("", new)] is. *)
Fixpoint intersperse (new s : string) : string :=
  match s with
  | EmptyString => new
  | String c rest => new +:+ String c (intersperse new rest)
  end.

(** The left-to-right scan of [str.replace] for a non-empty [old]: [skip]
    counts the characters of a match that are still to be dropped. *)
Fixpoint replace_from (old new : string) (skip : nat) (s : string) : string :=
  match s with
  | EmptyString => EmptyString
  | String c rest =>
      match skip with
      | S k => replace_from old new k rest
      | O =>
          if startswith old s
          then new +:+ replace_from old new (String.length old - 1) rest
          else String c (replace_from old new 0 rest)
      end
  end.

(** [s.replace(old, new)]: every non-overlapping occurrence, leftmost first. *)
Definition replace (old new s : string) : string :=
  match old with
  | EmptyString => intersperse new s
  | String _ _ => replace_from old new 0 s
  end.

(** [str.lower] on one code point below 256: A-Z, and the Latin-1 capitals
    (192-222 except the multiplication sign 215), move up by 32. *)
Definition lower_char (c : ascii) : ascii :=
  let n := nat_of_ascii c in
  if (((65 <=? n) && (n <=? 90)) ||
      ((192 <=? n) && (n <=? 222) && negb (n =? 215)))%nat
  then ascii_of_nat (n + 32)
  else c.

Fixpoint lower (s : string) : string :=
  match s with
  | EmptyString => EmptyString
  | String c rest => String (lower_char c) (lower rest)
  end.

(** *** Values *)

(** What an [Any] inside a telemetry record can be. *)
#[warnings="-register-all"]
Inductive value : Type :=
  | VNone
  | VBool (b : bool)
  | VInt (n : Z)
  | VFloat (f : float)
  | VStr (s : string)
  | VList (l : list value)
  | VDict (m : gmap string value).

(** *** Exceptions and the error monad *)

Inductive exn : Type :=
  | TypeError
  | AttributeError
  | KeyError.

Inductive result (A : Type) : Type :=
  | Return (a : A)
  | Raise (e : exn).
Arguments Return {A} a.
Arguments Raise {A} e.

#[export] Instance result_ret : MRet result := fun A a => Return a.
#[export] Instance result_bind : MBind result := fun A B f r =>
  match r with
  | Return a => f a
  | Raise e => Raise e
  end.

(** *** Primitives on values *)

(** [v == s] for a string literal [s]: values of other kinds are unequal. *)
Definition eq_str (v : value) (s : string) : bool :=
  match v with
  | VStr s' => String.eqb s' s
  | _ => false
  end.

(** [bool(v)], the test [if v:] performs. *)
Definition truthy (v : value) : bool :=
  match v with
  | VNone => false
  | VBool b => b
  | VInt n => negb (n =? 0)%Z
  | VFloat f => negb (PrimFloat.eqb f 0%float)
  | VStr s => negb (String.eqb s "")
  | VList l => match l with [] => false | _ :: _ => true end
  | VDict m => negb (bool_decide (m = ∅))
  end.

(** [key in v]. *)
Definition py_in (key : string) (v : value) : result bool :=
  match v with
  | VDict m => Return (bool_decide (is_Some (m !! key)))
  | VStr s => Return (contains key s)
  | VList l => Return (existsb (fun x => eq_str x key) l)
  | VNone | VBool _ | VInt _ | VFloat _ => Raise TypeError
  end.

(** [v[key]] for a string [key]. *)
Definition getitem (v : value) (key : string) : result value :=
  match v with
  | VDict m => match m !! key with Some x => Return x | None => Raise KeyError end
  | _ => Raise TypeError
  end.

(** [v[key] = x] for a string [key]; returns the mutated container. *)
Definition setitem (v : value) (key : string) (x : value) : result value :=
  match v with
  | VDict m => Return (VDict (<[key := x]> m))
  | _ => Raise TypeError
  end.

(** [v.pop(key, None)]; returns the mutated container (the popped value is
    discarded at every call site). A list accepts one argument at most. *)
Definition pop (v : value) (key : string) : result value :=
  match v with
  | VDict m => Return (VDict (delete key m))
  | VList _ => Raise TypeError
  | _ => Raise AttributeError
  end.

(** [v.get(key, dflt)]. *)
Definition get (v : value) (key : string) (dflt : value) : result value :=
  match v with
  | VDict m => Return (default dflt (m !! key))
  | _ => Raise AttributeError
  end.

(** [list(v.keys())]. *)
Definition keys (v : value) : result (list string) :=
  match v with
  | VDict m => Return (fst <$> map_to_list m)
  | _ => Raise AttributeError
  end.

(** [v.replace(old, new)]. *)
Definition str_replace (v : value) (old new : string) : result value :=
  match v with
  | VStr s => Return (VStr (replace old new s))
  | _ => Raise AttributeError
  end.

(** [any(f(x) for x in xs)]: stops at the first true, raises at the first
    raise. *)
Fixpoint any {A : Type} (f : A -> result bool) (xs : list A) : result bool :=
  match xs with
  | [] => Return false
  | x :: rest =>
      match f x with
      | Return true => Return true
      | Return false => any f rest
      | Raise e => Raise e
      end
  end.

(** A local name bound to [container[key]] was mutated into [x]: the
    container sees it. *)
Definition through (container : value) (key : string) (x : value) : value :=
  match container with
  | VDict m => VDict (<[key := x]> m)
  | _ => container
  end.

End Py.

(** ** sentry.py: the pre-send and pre-breadcrumb filters *)
Module Sentry.
Import Py.

(** The mask written over a sensitive value. *)
Definition REDACTED : value := VStr "[REDACTED]".

(** The outcome of a filter, as the SDK reads it: the record to send, or
    [None] to drop it. *)
Definition Keep (record : gmap string value) : option (gmap string value) :=
  Some record.
Definition Drop : option (gmap string value) := None.

(** Lines 79-84: [if "headers" in request: headers = request["headers"];
    headers.pop("authorization", None); headers.pop("cookie", None);
    headers.pop("x-api-key", None)]. *)
Definition remove_authorization_headers (request : value) : result value :=
  has_headers ← py_in "headers" request;
  if has_headers : bool then
    headers ← getitem request "headers";
    headers ← pop headers "authorization";
    headers ← pop headers "cookie";
    headers ← pop headers "x-api-key";
    mret (through request "headers" headers)
  else mret request.

(** Lines 87-93: [if "query_string" in request: query = request["query_string"];
    if query: sanitized = query.replace("token=", "token=[REDACTED]");
    sanitized = sanitized.replace("api_key=", "api_key=[REDACTED]");
    request["query_string"] = sanitized]. *)
Definition sanitize_query_string (request : value) : result value :=
  has_query ← py_in "query_string" request;
  if has_query : bool then
    query ← getitem request "query_string";
    if truthy query then
      sanitized ← str_replace query "token=" "token=[REDACTED]";
      sanitized ← str_replace sanitized "api_key=" "api_key=[REDACTED]";
      setitem request "query_string" sanitized
    else mret request
  else mret request.

(** Line 100: ["password" in key.lower() or "secret" in key.lower()]. *)
Definition sensitive_key (key : string) : bool :=
  contains "password" (lower key) || contains "secret" (lower key).

(** Lines 99-101, the loop body folded over the snapshot of the keys:
    [for key in list(extra.keys()): if ...: extra[key] = "[REDACTED]"]. *)
Definition redact_keys (keys : list string) (extra : gmap string value)
  : gmap string value :=
  fold_left
    (fun extra key => if sensitive_key key then <[key := REDACTED]> extra else extra)
    keys extra.

(** Lines 96-101, "Remove sensitive extra data". *)
Definition remove_sensitive_extra (extra : value) : result value :=
  ks ← keys extra;
  mret (match extra with
        | VDict m => VDict (redact_keys ks m)
        | _ => extra
        end).

(** Lines 108-111: the database context. *)
Definition sanitize_database (contexts : value) : result value :=
  has_db ← py_in "database" contexts;
  if has_db : bool then
    db ← getitem contexts "database";
    has_conn ← py_in "connection_string" db;
    if has_conn : bool then
      db ← setitem db "connection_string" REDACTED;
      mret (through contexts "database" db)
    else mret contexts
  else mret contexts.

(** Lines 114-117: the payment context. *)
Definition sanitize_stripe (contexts : value) : result value :=
  has_stripe ← py_in "stripe" contexts;
  if has_stripe : bool then
    stripe ← getitem contexts "stripe";
    stripe ← pop stripe "secret_key";
    stripe ← pop stripe "api_key";
    mret (through contexts "stripe" stripe)
  else mret contexts.

(** Lines 77-93, "Remove sensitive request data". *)
Definition remove_sensitive_request_data (request : value) : result value :=
  request ← remove_authorization_headers request;
  sanitize_query_string request.

(** Lines 105-117, "Remove sensitive context". *)
Definition remove_sensitive_context (contexts : value) : result value :=
  contexts ← sanitize_database contexts;
  sanitize_stripe contexts.

(** [if key in event: sub = event[key]; ...block mutating sub...]: the block
    runs on the sub-record when the key is present, and the event sees the
    mutation. *)
Definition on_key (key : string) (block : value -> result value)
    (event : gmap string value) : result (gmap string value) :=
  match event !! key with
  | Some sub => sub ← block sub; mret (<[key := sub]> event)
  | None => mret event
  end.

(** Lines 64-119. The [hint] is not read. *)
Definition before_send_filter (event hint : gmap string value)
  : result (option (gmap string value)) :=
  event ← on_key "request" remove_sensitive_request_data event;
  event ← on_key "extra" remove_sensitive_extra event;
  event ← on_key "contexts" remove_sensitive_context event;
  mret (Keep event).

(** The denylist of line 140. *)
Definition analytics_vendors : list string :=
  ["analytics"; "tracking"; "segment"; "mixpanel"].

(** Lines 122-143. [crumb.get("category")] is [None] when the key is absent,
    and [None] equals no string. *)
Definition before_breadcrumb_filter (crumb hint : gmap string value)
  : result (option (gmap string value)) :=
  let category := default VNone (crumb !! "category") in
  if eq_str category "query" then mret Drop
  else if eq_str category "httplib" then
    url ← get (default (VDict ∅) (crumb !! "data")) "url" (VStr "");
    tracked ← any (fun x => py_in x url) analytics_vendors;
    if tracked : bool then mret Drop else mret (Keep crumb)
  else mret (Keep crumb).

(** *** The shape of a record

    The sub-records [before_send_filter] opens are mappings and the query
    string is a string (or [None]), wherever they are present. *)

Definition absent_or (shape : value -> bool) (o : option value) : bool :=
  match o with
  | None => true
  | Some v => shape v
  end.

Definition is_dict (v : value) : bool :=
  match v with VDict _ => true | _ => false end.

Definition is_str_or_none (v : value) : bool :=
  match v with VStr _ | VNone => true | _ => false end.

Definition request_shaped (v : value) : bool :=
  match v with
  | VDict request =>
      absent_or is_dict (request !! "headers") &&
      absent_or is_str_or_none (request !! "query_string")
  | _ => false
  end.

Definition contexts_shaped (v : value) : bool :=
  match v with
  | VDict contexts =>
      absent_or is_dict (contexts !! "database") &&
      absent_or is_dict (contexts !! "stripe")
  | _ => false
  end.

Definition event_shaped (event : gmap string value) : bool :=
  absent_or request_shaped (event !! "request") &&
  absent_or is_dict (event !! "extra") &&
  absent_or contexts_shaped (event !! "contexts").


(** *** What the rules compute *)

(** The header keys of lines 82-84. *)
Definition credential_headers : list string :=
  ["authorization"; "cookie"; "x-api-key"].

(** Lines 82-84 on the mapping of headers. *)
Definition without_credentials (headers : gmap string value) : gmap string value :=
  delete "x-api-key" (delete "cookie" (delete "authorization" headers)).

(** Lines 91-92 on the query string. *)
Definition masked_query (query : string) : string :=
  replace "api_key=" "api_key=[REDACTED]" (replace "token=" "token=[REDACTED]" query).

(** [event'] holds at [key] what [block] returned on the sub-record [event]
    holds there, and nothing where [event] holds nothing. *)
Definition block_applied (block : value -> result value) (key : string)
    (event event' : gmap string value) : Prop :=
  match event !! key with
  | Some sub => exists sub', block sub = Return sub' /\ event' !! key = Some sub'
  | None => event' !! key = None
  end.

(** A value that is no container: [key in v] raises on it. *)
Definition is_scalar (v : value) : bool :=
  match v with
  | VNone | VBool _ | VInt _ | VFloat _ => true
  | VStr _ | VList _ | VDict _ => false
  end.

(** The keys of lines 116-117. *)
Definition stripe_secrets : list string := ["secret_key"; "api_key"].

(** *** Records of the scenarios *)

(** An event whose request carries the query string [q] and nothing else. *)
Definition query_event (q : string) : gmap string value :=
  {[ "request" := VDict {[ "query_string" := VStr q ]} ]}.

(** An event whose request carries the headers [h] and nothing else. *)
Definition headers_event (h : gmap string value) : gmap string value :=
  {[ "request" := VDict {[ "headers" := VDict h ]} ]}.

(** An event with a request, extra data and contexts, all to be masked. *)
Definition full_event : gmap string value :=
  <[ "request" := VDict (<[ "headers" := VDict {[ "cookie" := VStr "sid=1" ]} ]>
                           {[ "query_string" := VStr "page=2" ]}) ]>
  (<[ "extra" := VDict (<[ "DB_Password" := VStr "hunter2" ]>
                          {[ "attempt" := VInt 3 ]}) ]>
  {[ "contexts" := VDict {[ "stripe" := VDict {[ "api_key" := VStr "sk_live" ]} ]} ]}).


End Sentry.


(** ** app_insights.py: the tracing and metrics adapter *)
Module AppInsights.
Import Py.

(** *** Objects of the process *)

(** A raised object: [type(e).__name__], [str(e)], and whether its class
    derives from [Exception] (an error) or from [BaseException] only (an
    exit or cancellation signal), which is what [except Exception] tests. *)
Record exception : Type := mk_exception {
  exc_type : string;
  exc_str : string;
  exc_is_Exception : bool
}.

(** Vendor objects; [_id] is the identity of the Python object. *)
Record Tracer : Type := mk_Tracer {
  tracer_id : nat;
  tracer_connection_string : string;
  tracer_sampling_rate : float
}.

Record MetricsExporter : Type := mk_MetricsExporter {
  metrics_exporter_id : nat;
  metrics_exporter_connection_string : string
}.

Record AzureLogHandler : Type := mk_AzureLogHandler {
  handler_id : nat;
  handler_connection_string : string
}.

(** [logging.getLogger(__name__)]: the one logger of the module. Its handler
    list and level are state of the process, kept in the [world]. *)
Inductive Logger : Type := module_logger.

Inductive level : Type := DEBUG | INFO | WARNING | ERROR | CRITICAL.

(** The calls that leave this module towards the vendor client. The two
    export calls are those of [flush], lines 357 and 360, which the source
    does not reach: their argument raises first. *)
Inductive vendor_call : Type :=
  | Log (lvl : level) (msg : string) (exc_info : option exception)
        (extra : gmap string value)
  | RegisterView (name : string)
  | TagInsert (key : string) (v : value)
  | MeasureFloatPut (measure : string) (v : value)
  | RecordMeasurements
  | ExportSpans (t : Tracer)
  | ExportMetrics (m : MetricsExporter).

(** The tracking interface, one constructor per function with its arguments. *)
Inductive tracking_call : Type :=
  | TrackEvent (name : string) (properties measurements : option (gmap string value))
  | TrackMetric (name : string) (v : value) (properties : option (list (string * value)))
  | TrackException (error : exception) (severity : string)
                   (properties : option (gmap string value))
  | TrackTrace (message severity : string) (properties : option (gmap string value))
  | TrackRequest (name url : string) (duration : float) (response_code : Z)
                 (success : bool) (properties : option (gmap string value))
  | TrackDependency (name dependency_type target : string) (duration : float)
                    (success : bool) (result_code : option Z)
                    (properties : option (gmap string value))
  | Flush.

(** The process: the environment, the three module globals of lines 35-37,
    the state of the module's logger, the allocator of object identities,
    the clock behind [time.time()], and what was observed so far: lines
    printed, calls made to the vendor client, and (a ghost field) the calls
    made to the tracking interface. *)
Record world : Type := mk_world {
  environ : gmap string string;
  _tracer : option Tracer;
  _metrics_exporter : option MetricsExporter;
  _logger : option Logger;
  logger_handlers : list AzureLogHandler;
  logger_level : option level;
  next_id : nat;
  clock : nat -> float;
  ticks : nat;
  stdout : list string;
  vendor_calls : list vendor_call;
  calls : list tracking_call
}.

Definition with_tracer (t : option Tracer) (w : world) : world :=
  mk_world (environ w) t (_metrics_exporter w) (_logger w) (logger_handlers w)
    (logger_level w) (next_id w) (clock w) (ticks w) (stdout w)
    (vendor_calls w) (calls w).

Definition with_metrics_exporter (m : option MetricsExporter) (w : world) : world :=
  mk_world (environ w) (_tracer w) m (_logger w) (logger_handlers w)
    (logger_level w) (next_id w) (clock w) (ticks w) (stdout w)
    (vendor_calls w) (calls w).

Definition with_logger (l : option Logger) (w : world) : world :=
  mk_world (environ w) (_tracer w) (_metrics_exporter w) l (logger_handlers w)
    (logger_level w) (next_id w) (clock w) (ticks w) (stdout w)
    (vendor_calls w) (calls w).

Definition with_logger_handlers (hs : list AzureLogHandler) (w : world) : world :=
  mk_world (environ w) (_tracer w) (_metrics_exporter w) (_logger w) hs
    (logger_level w) (next_id w) (clock w) (ticks w) (stdout w)
    (vendor_calls w) (calls w).

Definition with_logger_level (l : option level) (w : world) : world :=
  mk_world (environ w) (_tracer w) (_metrics_exporter w) (_logger w)
    (logger_handlers w) l (next_id w) (clock w) (ticks w) (stdout w)
    (vendor_calls w) (calls w).

Definition with_next_id (n : nat) (w : world) : world :=
  mk_world (environ w) (_tracer w) (_metrics_exporter w) (_logger w)
    (logger_handlers w) (logger_level w) n (clock w) (ticks w) (stdout w)
    (vendor_calls w) (calls w).

Definition with_ticks (n : nat) (w : world) : world :=
  mk_world (environ w) (_tracer w) (_metrics_exporter w) (_logger w)
    (logger_handlers w) (logger_level w) (next_id w) (clock w) n (stdout w)
    (vendor_calls w) (calls w).

Definition with_stdout (out : list string) (w : world) : world :=
  mk_world (environ w) (_tracer w) (_metrics_exporter w) (_logger w)
    (logger_handlers w) (logger_level w) (next_id w) (clock w) (ticks w) out
    (vendor_calls w) (calls w).

Definition with_vendor_calls (vs : list vendor_call) (w : world) : world :=
  mk_world (environ w) (_tracer w) (_metrics_exporter w) (_logger w)
    (logger_handlers w) (logger_level w) (next_id w) (clock w) (ticks w)
    (stdout w) vs (calls w).

Definition with_calls (cs : list tracking_call) (w : world) : world :=
  mk_world (environ w) (_tracer w) (_metrics_exporter w) (_logger w)
    (logger_handlers w) (logger_level w) (next_id w) (clock w) (ticks w)
    (stdout w) (vendor_calls w) cs.

(** *** The monad of the module: state and exceptions *)

Inductive outcome (A : Type) : Type :=
  | Returns (a : A)
  | Raises (e : exception).
Arguments Returns {A} a.
Arguments Raises {A} e.

Definition io (A : Type) : Type := world -> outcome A * world.

#[export] Instance io_ret : MRet io := fun A a w => (Returns a, w).
#[export] Instance io_bind : MBind io := fun A B f m w =>
  match m w with
  | (Returns a, w') => f a w'
  | (Raises e, w') => (Raises e, w')
  end.

Definition raise {A : Type} (e : exception) : io A := fun w => (Raises e, w).

(** [try: body  except Exception as e: handler(e)]. An object whose class
    does not derive from [Exception] passes through. *)
Definition try_except {A : Type} (body : io A) (handler : exception -> io A) : io A :=
  fun w =>
    match body w with
    | (Returns a, w') => (Returns a, w')
    | (Raises e, w') =>
        if exc_is_Exception e then handler e w' else (Raises e, w')
    end.

Definition read {A : Type} (field : world -> A) : io A :=
  fun w => (Returns (field w), w).

Definition write (update : world -> world) : io unit :=
  fun w => (Returns tt, update w).

(** [os.getenv(name)] and [os.getenv(name, dflt)]. *)
Definition getenv (name : string) : io (option string) :=
  read (fun w => environ w !! name).

Definition getenv_default (name dflt : string) : io string :=
  read (fun w => default dflt (environ w !! name)).

(** [print(line)]. *)
Definition print (line : string) : io unit :=
  write (fun w => with_stdout (stdout w ++ [line]) w).

(** [time.time()]: the next reading of the clock. *)
Definition time_time : io float :=
  fun w => (Returns (clock w (ticks w)), with_ticks (S (ticks w)) w).

(** A constructor call allocates a new object. *)
Definition new_object : io nat :=
  fun w => (Returns (next_id w), with_next_id (S (next_id w)) w).

(** A call on the vendor client that returns: the call is recorded. *)
Definition vendor (c : vendor_call) : io unit :=
  write (fun w => with_vendor_calls (vendor_calls w ++ [c]) w).

(** Ghost: entering a function of the tracking interface. The source keeps
    no such record; it is what lets a property say which tracking calls a
    caller made, also when the adapter is disabled and nothing else shows. *)
Definition enter (c : tracking_call) : io unit :=
  write (fun w => with_calls (calls w ++ [c]) w).

(** [for x in xs: body(x)]. *)
Fixpoint for_each {A : Type} (xs : list A) (body : A -> io unit) : io unit :=
  match xs with
  | [] => mret tt
  | x :: rest => body x;; for_each rest body
  end.

(** [logger.addHandler(h)] of the standard library: appended unless that
    very object is in the list already. *)
Definition addHandler (h : AzureLogHandler) : io unit :=
  write (fun w =>
    if existsb (fun h' => Nat.eqb (handler_id h') (handler_id h)) (logger_handlers w)
    then w
    else with_logger_handlers (logger_handlers w ++ [h]) w).

(** [o or {}]. *)
Definition or_empty (o : option (gmap string value)) : gmap string value :=
  default ∅ o.

(** The dict display [{k1: v1, ..., **later}]: a later entry wins. *)
Definition unpack_over (later earlier : gmap string value) : gmap string value :=
  later ∪ earlier.

(** *** Initialisation (lines 40-82) *)

(** The setup calls into the vendor SDK, each of which may raise. *)
Inductive setup_step : Type :=
  | trace_integrations
  | new_AzureExporter (connection_string : string)
  | new_ProbabilitySampler (rate : float)
  | new_Tracer
  | new_metrics_exporter (connection_string : string)
  | new_AzureLogHandler (connection_string : string).

Section Init.

(** What the SDK does on each setup call: [None] when it returns, [Some e]
    when it raises [e]. *)
Variable sdk : setup_step -> option exception.

Definition setup (step : setup_step) : io unit :=
  match sdk step with
  | None => mret tt
  | Some e => raise e
  end.

Definition init_app_insights : io unit :=
  connection_string ← getenv "APPLICATIONINSIGHTS_CONNECTION_STRING";
  match connection_string with
  | None | Some EmptyString =>
      print "[App Insights] Connection string not configured, monitoring disabled"
  | Some connection_string =>
      node_env ← getenv_default "NODE_ENV" "development";
      environment ← getenv_default "APPINSIGHTS_ENVIRONMENT" node_env;
      try_except
        (setup trace_integrations;;
         let sampling_rate :=
           if String.eqb environment "production"
           then 0x1.999999999999ap-4%float else 1%float in
         setup (new_AzureExporter connection_string);;
         setup (new_ProbabilitySampler sampling_rate);;
         setup new_Tracer;;
         tid ← new_object;
         write (with_tracer (Some (mk_Tracer tid connection_string sampling_rate)));;
         setup (new_metrics_exporter connection_string);;
         mid ← new_object;
         write (with_metrics_exporter
                  (Some (mk_MetricsExporter mid connection_string)));;
         write (with_logger (Some module_logger));;
         setup (new_AzureLogHandler connection_string);;
         hid ← new_object;
         addHandler (mk_AzureLogHandler hid connection_string);;
         write (with_logger_level (Some INFO));;
         print ("[App Insights] Initialized successfully (environment: "
                +:+ environment +:+ ")"))
        (fun e => print ("[App Insights] Failed to initialize: " +:+ exc_str e))
  end.

End Init.

(** *** The tracking functions (lines 95-304, 354-360) *)

(** Lines 95-119. *)
Definition track_event (name : string)
    (properties measurements : option (gmap string value)) : io unit :=
  enter (TrackEvent name properties measurements);;
  logger ← read _logger;
  match logger with
  | None => mret tt
  | Some _ =>
      let extra : gmap string value :=
        {[ "custom_dimensions" :=
             VDict (unpack_over (or_empty measurements)
                      (unpack_over (or_empty properties)
                         {[ "event_name" := VStr name ]})) ]} in
      vendor (Log INFO ("Event: " +:+ name) None extra)
  end.

(** [type(v).__name__]. *)
Definition type_name (v : value) : string :=
  match v with
  | VNone => "NoneType"
  | VBool _ => "bool"
  | VInt _ => "int"
  | VFloat _ => "float"
  | VStr _ => "str"
  | VList _ => "list"
  | VDict _ => "dict"
  end.

(** The values that compare with a number: [v < 0] is defined on them. *)
Definition is_number (v : value) : bool :=
  match v with
  | VBool _ | VInt _ | VFloat _ => true
  | _ => false
  end.

(** [TypeError] of the comparison [v < 0] on a value that is no number. *)
Definition not_comparable (v : value) : exception :=
  mk_exception "TypeError"
    ("'<' not supported between instances of '" +:+ type_name v +:+ "' and 'int'")
    true.

(** [mmap.measure_float_put(measure, value)]. The method of the vendor opens
    with the test [value < 0], so that, called with a value that is no
    number, it raises [TypeError] and stores nothing. *)
Definition measure_float_put (measure : string) (v : value) : io unit :=
  vendor (MeasureFloatPut measure v);;
  if is_number v then mret tt else raise (not_comparable v).

(** Lines 122-165. The loop of line 161 binds the name [value] again, so the
    value handed to [measure_float_put] at line 164 is the last property's
    value when there is a property: for the [Dict[str, str]] of the
    signature a string, on which that call raises, and line 165 is not
    reached. [properties] keeps the insertion order of the dict.
    [tmap.insert] is followed for tags the vendor accepts ([accepted_tag]
    below); it raises on others, which this embedding does not pursue. *)
Definition track_metric (name : string) (v : value)
    (properties : option (list (string * value))) : io unit :=
  enter (TrackMetric name v properties);;
  exporter ← read _metrics_exporter;
  match exporter with
  | None => mret tt
  | Some _ =>
      vendor (RegisterView name);;
      let items := default [] properties in
      for_each items (fun kv => vendor (TagInsert (fst kv) (snd kv)));;
      let v := fold_left (fun _ kv => snd kv) items v in
      measure_float_put name v;;
      vendor RecordMeasurements
  end.

(** Lines 168-197. *)
Definition track_exception (error : exception) (severity : string)
    (properties : option (gmap string value)) : io unit :=
  enter (TrackException error severity properties);;
  logger ← read _logger;
  match logger with
  | None => mret tt
  | Some _ =>
      let extra : gmap string value :=
        {[ "custom_dimensions" :=
             VDict (unpack_over (or_empty properties)
                      (<[ "exception_message" := VStr (exc_str error) ]>
                         {[ "exception_type" := VStr (exc_type error) ]})) ]} in
      if String.eqb severity "CRITICAL" then
        vendor (Log CRITICAL (exc_str error) (Some error) extra)
      else if String.eqb severity "WARNING" then
        vendor (Log WARNING (exc_str error) (Some error) extra)
      else
        vendor (Log ERROR (exc_str error) (Some error) extra)
  end.

(** Lines 200-229. *)
Definition track_trace (message severity : string)
    (properties : option (gmap string value)) : io unit :=
  enter (TrackTrace message severity properties);;
  logger ← read _logger;
  match logger with
  | None => mret tt
  | Some _ =>
      let extra : gmap string value :=
        {[ "custom_dimensions" := VDict (or_empty properties) ]} in
      if String.eqb severity "DEBUG" then vendor (Log DEBUG message None extra)
      else if String.eqb severity "WARNING" then vendor (Log WARNING message None extra)
      else if String.eqb severity "ERROR" then vendor (Log ERROR message None extra)
      else if String.eqb severity "CRITICAL" then vendor (Log CRITICAL message None extra)
      else vendor (Log INFO message None extra)
  end.

(** Lines 232-265. *)
Definition track_request (name url : string) (duration : float)
    (response_code : Z) (success : bool)
    (properties : option (gmap string value)) : io unit :=
  enter (TrackRequest name url duration response_code success properties);;
  logger ← read _logger;
  match logger with
  | None => mret tt
  | Some _ =>
      let extra : gmap string value :=
        {[ "custom_dimensions" :=
             VDict (unpack_over (or_empty properties)
                      (<[ "success" := VBool success ]>
                      (<[ "response_code" := VInt response_code ]>
                      (<[ "duration_ms" := VFloat duration ]>
                      (<[ "url" := VStr url ]>
                         {[ "request_name" := VStr name ]}))))) ]} in
      vendor (Log INFO ("Request: " +:+ name) None extra)
  end.

(** Lines 268-304. *)
Definition track_dependency (name dependency_type target : string)
    (duration : float) (success : bool) (result_code : option Z)
    (properties : option (gmap string value)) : io unit :=
  enter (TrackDependency name dependency_type target duration success
           result_code properties);;
  logger ← read _logger;
  match logger with
  | None => mret tt
  | Some _ =>
      let extra : gmap string value :=
        {[ "custom_dimensions" :=
             VDict (unpack_over (or_empty properties)
                      (<[ "result_code" :=
                            match result_code with Some c => VInt c | None => VNone end ]>
                      (<[ "success" := VBool success ]>
                      (<[ "duration_ms" := VFloat duration ]>
                      (<[ "target" := VStr target ]>
                      (<[ "dependency_type" := VStr dependency_type ]>
                         {[ "dependency_name" := VStr name ]})))))) ]} in
      vendor (Log INFO ("Dependency: " +:+ name) None extra)
  end.

(** [AttributeError] of [obj.attr] on an object of class [cls] that has
    no such attribute. *)
Definition no_attribute (cls attr : string) : exception :=
  mk_exception "AttributeError"
    ("'" +:+ cls +:+ "' object has no attribute '" +:+ attr +:+ "'")
    true.

(** Lines 354-360. The argument of each export call is the attribute
    [queue] of the exporter, which neither vendor class has (the span
    exporter keeps its queue under the name [_queue]): evaluating the
    argument raises [AttributeError], and the export call is not made. *)
Definition flush : io unit :=
  enter Flush;;
  tracer ← read _tracer;
  match tracer with
  | Some _ => raise (no_attribute "AzureExporter" "queue")
  | None => mret tt
  end;;
  exporter ← read _metrics_exporter;
  match exporter with
  | Some _ => raise (no_attribute "MetricsExporter" "queue")
  | None => mret tt
  end.

(** A call of the tracking interface, performed. *)
Definition perform (c : tracking_call) : io unit :=
  match c with
  | TrackEvent name properties measurements =>
      track_event name properties measurements
  | TrackMetric name v properties => track_metric name v properties
  | TrackException error severity properties =>
      track_exception error severity properties
  | TrackTrace message severity properties =>
      track_trace message severity properties
  | TrackRequest name url duration response_code success properties =>
      track_request name url duration response_code success properties
  | TrackDependency name dependency_type target duration success result_code
      properties =>
      track_dependency name dependency_type target duration success result_code
        properties
  | Flush => flush
  end.

(** *** The request middleware (lines 364-406) *)

(** [request.method], [request.url.path], [str(request.url)]. *)
Record Request : Type := mk_Request {
  method : string;
  url_path : string;
  url_str : string
}.

Record Response : Type := mk_Response {
  status_code : Z;
  body : string
}.

(** The [properties] of both emissions. *)
Definition request_properties (request : Request) : gmap string value :=
  <[ "path" := VStr (url_path request) ]> {[ "method" := VStr (method request) ]}.

(** [(now - start_time) * 1000] on binary64 floats. *)
Definition elapsed_ms (start_time now : float) : float :=
  PrimFloat.mul (PrimFloat.sub now start_time) 1000%float.

(** Lines 375-404. [call_next] is the rest of the application, any
    computation of the process. The bare [raise] of line 404 raises the
    caught object again. *)
Definition app_insights_middleware (request : Request)
    (call_next : Request -> io Response) : io Response :=
  start_time ← time_time;
  try_except
    (response ← call_next request;
     now ← time_time;
     let duration := elapsed_ms start_time now in
     track_request
       (method request +:+ " " +:+ url_path request)
       (url_str request)
       duration
       (status_code response)
       (status_code response <? 400)%Z
       (Some (request_properties request));;
     mret response)
    (fun e =>
       now ← time_time;
       let duration := elapsed_ms start_time now in
       track_exception e "ERROR" (Some (request_properties request));;
       raise e).

(** The reading of "exactly one of the two emission paths fires": once the
    middleware is done with a request, it has made, after the handler, one
    tracking call, a [track_request] or a [track_exception]. *)
Definition fires_one_path (request : Request)
    (call_next : Request -> io Response) (w : world) : Prop :=
  let handled := (call_next request (with_ticks (S (ticks w)) w)).2 in
  let served := (app_insights_middleware request call_next w).2 in
  exists c,
    calls served = (calls handled ++ [c])%list /\
    match c with
    | TrackRequest _ _ _ _ _ _ | TrackException _ _ _ => True
    | _ => False
    end.

(** *** States of the adapter *)

(** The disabled state: no global is set. *)
Definition disabled (w : world) : bool :=
  match _tracer w, _metrics_exporter w, _logger w with
  | None, None, None => true
  | _, _, _ => false
  end.

(** No credential in the environment: line 50's [not connection_string]. *)
Definition no_credential (w : world) : bool :=
  match environ w !! "APPLICATIONINSIGHTS_CONNECTION_STRING" with
  | None | Some EmptyString => true
  | Some _ => false
  end.

(** The process-wide state the adapter owns. *)
Definition adapter_state (w : world)
  : option Tracer * option MetricsExporter * option Logger
    * list AzureLogHandler * option level :=
  (_tracer w, _metrics_exporter w, _logger w, logger_handlers w, logger_level w).

(** Identities handed out so far are below the allocator: a newly built
    handler is none of the attached ones. *)
Definition handlers_allocated (w : world) : Prop :=
  Forall (fun h => handler_id h < next_id w) (logger_handlers w).

(** The module as imported, before any call: lines 35-37. *)
Definition at_import (env : gmap string string) (clk : nat -> float) : world :=
  mk_world env None None None [] None 0 clk 0 [] [] [].

(** What a guard against double initialisation would give, for a first call
    made in [w]: the second call leaves the adapter state as the first call
    left it, or it is rejected. *)
Definition guards_double_initialization
    (sdk : setup_step -> option exception) (w : world) : Prop :=
  let after_first := (init_app_insights sdk w).2 in
  let second := init_app_insights sdk after_first in
  adapter_state second.2 = adapter_state after_first \/
  exists e, second.1 = Raises e.

(** *** Processes of the scenarios *)

(** An SDK whose setup calls all return. *)
Definition sdk_ok : setup_step -> option exception := fun _ => None.

(** An environment with a connection string. *)
Definition configured_env : gmap string string :=
  {[ "APPLICATIONINSIGHTS_CONNECTION_STRING" := "InstrumentationKey=00000000" ]}.

(** A clock whose first reading is 100 s and whose later readings are
    100.25 s. *)
Definition test_clock (n : nat) : float :=
  match n with
  | O => 100%float
  | S _ => 100.25%float
  end.

(** [ValueError("boom")]. *)
Definition boom : exception := mk_exception "ValueError" "boom" true.

Definition get_users : Request :=
  mk_Request "GET" "/api/users" "http://testserver/api/users".

(** [n] calls of [init_app_insights], one after the other. *)
Fixpoint init_repeatedly (sdk : setup_step -> option exception) (n : nat)
  : io unit :=
  match n with
  | O => mret tt
  | S k => init_app_insights sdk;; init_repeatedly sdk k
  end.

(** An SDK that refuses to build the log handler and returns from every
    other setup call. *)
Definition sdk_without_handler : setup_step -> option exception := fun step =>
  match step with
  | new_AzureLogHandler _ =>
      Some (mk_exception "ValueError" "Invalid instrumentation key." true)
  | _ => None
  end.

(** [asyncio.CancelledError()], whose class derives from [BaseException]
    only. *)
Definition cancelled : exception := mk_exception "CancelledError" "" false.

(** Strings of printable ASCII characters, codes 32 to 126. *)
Definition printable (s : string) : bool :=
  forallb (fun c => (32 <=? nat_of_ascii c)%nat && (nat_of_ascii c <=? 126)%nat)
    (list_ascii_of_string s).

(** The tags the vendor's [TagMap.insert] accepts: key and value strings of
    printable characters, at most 255 of them, the key not empty. *)
Definition accepted_tag (kv : string * value) : bool :=
  match kv with
  | (key, VStr s) =>
      printable key && (0 <? String.length key)%nat
      && (String.length key <=? 255)%nat
      && printable s && (String.length s <=? 255)%nat
  | _ => false
  end.

End AppInsights.

(** ** sentry.py: initialisation and the capture wrappers *)
Module SentrySdk.
Import Py Sentry.

(** A raised object, as in the adapter. *)
Abbreviation exception := AppInsights.exception.
Abbreviation outcome := AppInsights.outcome.
Abbreviation Returns := AppInsights.Returns.
Abbreviation Raises := AppInsights.Raises.

(** The integrations of lines 46-54. *)
Inductive integration : Type :=
  | FastApiIntegration (transaction_style : string)
  | StarletteIntegration (transaction_style : string)
  | SqlAlchemyIntegration.

(** A pre-send or pre-breadcrumb hook. *)
Definition hook : Type :=
  gmap string value -> gmap string value -> result (option (gmap string value)).

(** The keyword arguments of [sentry_sdk.init], lines 38-61. *)
Record init_options : Type := mk_init_options {
  dsn : string;
  environment : string;
  traces_sample_rate : float;
  profiles_sample_rate : float;
  integrations : list integration;
  before_send : hook;
  before_breadcrumb : hook
}.

(** The calls this module makes on [sentry_sdk] and on the scope a
    [with sentry_sdk.push_scope() as scope] block binds. [PushScope] and
    [PopScope] are the entry and the exit of that block. *)
Inductive sdk_call : Type :=
  | Init (options : init_options)
  | PushScope
  | PopScope
  | ScopeSetUser (user : gmap string value)
  | ScopeSetTag (key value : string)
  | ScopeSetExtra (key : string) (v : value)
  | ScopeSetContext (name : string) (context : gmap string value)
  | ScopeSetLevel (level : string)
  | CaptureException (error : exception)
  | CaptureMessage (message : string)
  | SetUser (user : option (gmap string value))
  | AddBreadcrumb (message category : string) (data : gmap string value)
                  (level : string).

(** The process, as far as this module touches it: the environment, the
    lines printed and the calls made on the SDK. *)
Record process : Type := mk_process {
  env : gmap string string;
  printed : list string;
  sdk_calls : list sdk_call
}.

Definition run (A : Type) : Type := process -> outcome A * process.

#[export] Instance run_ret : MRet run := fun A a p => (Returns a, p).
#[export] Instance run_bind : MBind run := fun A B f m p =>
  match m p with
  | (AppInsights.Returns a, p') => f a p'
  | (AppInsights.Raises e, p') => (Raises e, p')
  end.

(** [os.getenv(name)] and [os.getenv(name, dflt)]. *)
Definition getenv (name : string) : run (option string) :=
  fun p => (Returns (env p !! name), p).

Definition getenv_default (name dflt : string) : run string :=
  fun p => (Returns (default dflt (env p !! name)), p).

(** [print(line)]. *)
Definition print (line : string) : run unit :=
  fun p => (Returns tt, mk_process (env p) (printed p ++ [line]) (sdk_calls p)).

(** The record of a call on the SDK. *)
Definition record (c : sdk_call) (p : process) : process :=
  mk_process (env p) (printed p) (sdk_calls p ++ [c]).

Section Sdk.

(** What the SDK does on each call: [None] when it returns, [Some e] when
    it raises [e]. *)
Variable sdk : sdk_call -> option exception.

(** A call on the SDK: made, then it returns or raises. *)
Definition call (c : sdk_call) : run unit :=
  fun p =>
    match sdk c with
    | None => (Returns tt, record c p)
    | Some e => (Raises e, record c p)
    end.

(** [with sentry_sdk.push_scope() as scope: body]. [PushScope] is the call
    [push_scope()] together with the entry of the manager it returns: when
    it raises, the body does not run and nothing is popped. [PopScope] is
    the exit of that manager, run on the way out whether the body returned
    or raised: when it raises, that is what the statement raises; when it
    returns, the outcome of the body stands (the manager of the SDK returns
    [None] from its exit, so it suppresses nothing). *)
Definition with_push_scope {A : Type} (body : run A) : run A :=
  fun p =>
    match sdk PushScope with
    | Some e => (Raises e, record PushScope p)
    | None =>
        match body (record PushScope p) with
        | (o, p') =>
            (match sdk PopScope with
             | Some e => Raises e
             | None => o
             end,
             record PopScope p')
        end
    end.

(** [for x in xs: body(x)]. *)
Fixpoint for_each {A : Type} (xs : list A) (body : A -> run unit) : run unit :=
  match xs with
  | [] => mret tt
  | x :: rest => body x;; for_each rest body
  end.

(** [if x: body] for an optional dict: [None] and the empty dict skip. *)
Definition when_dict (d : option (gmap string value)) (body : gmap string value -> run unit)
  : run unit :=
  match d with
  | Some m => if bool_decide (m = ∅) then mret tt else body m
  | None => mret tt
  end.

(** [if x: for key, value in x.items(): body(key, value)], the dict given
    by its items in insertion order. *)
Definition when_items {V : Type} (d : option (list (string * V)))
    (body : string -> V -> run unit) : run unit :=
  for_each (default [] d) (fun kv => body (fst kv) (snd kv)).

(** Lines 24-61. *)
Definition init_sentry : run unit :=
  dsn ← getenv "SENTRY_DSN";
  match dsn with
  | None | Some EmptyString =>
      print "[Sentry] DSN not configured, error tracking disabled"
  | Some dsn =>
      node_env ← getenv_default "NODE_ENV" "development";
      environment ← getenv_default "SENTRY_ENVIRONMENT" node_env;
      call (Init
              (mk_init_options dsn environment
                 (if String.eqb environment "production"
                  then 0x1.999999999999ap-4%float else 1%float)
                 (if String.eqb environment "production"
                  then 0x1.999999999999ap-4%float else 1%float)
                 [FastApiIntegration "endpoint"; StarletteIntegration "endpoint";
                  SqlAlchemyIntegration]
                 before_send_filter
                 before_breadcrumb_filter))
  end.

(** Lines 146-181. *)
Definition capture_error (error : exception)
    (context user : option (gmap string value))
    (tags : option (list (string * string)))
    (extra : option (list (string * value)))
    (level : string) : run unit :=
  with_push_scope
    (when_dict user (fun user => call (ScopeSetUser user));;
     when_items tags (fun key value => call (ScopeSetTag key value));;
     when_items extra (fun key value => call (ScopeSetExtra key value));;
     when_dict context (fun context => call (ScopeSetContext "custom" context));;
     call (ScopeSetLevel level);;
     call (CaptureException error)).

(** Lines 184-209. *)
Definition capture_message (message level : string)
    (tags : option (list (string * string)))
    (extra : option (list (string * value))) : run unit :=
  with_push_scope
    (when_items tags (fun key value => call (ScopeSetTag key value));;
     when_items extra (fun key value => call (ScopeSetExtra key value));;
     call (ScopeSetLevel level);;
     call (CaptureMessage message)).

(** [x] for an optional string argument: [None] stays [None]. *)
Definition optional_str (o : option string) : value :=
  match o with
  | Some s => VStr s
  | None => VNone
  end.

(** Lines 212-225. *)
Definition set_user (user_id : string) (email username : option string) : run unit :=
  call (SetUser (Some (<[ "username" := optional_str username ]>
                      (<[ "email" := optional_str email ]>
                         {[ "id" := VStr user_id ]})))).

(** Lines 228-230. *)
Definition clear_user : run unit := call (SetUser None).

(** Lines 233-248. *)
Definition add_breadcrumb (message category : string)
    (data : option (gmap string value)) (level : string) : run unit :=
  call (AddBreadcrumb message category (default ∅ data) level).

End Sdk.

(** *** What the wrappers are expected to call *)

(** The calls [capture_error] makes inside its scope when none raises. *)
Definition capture_error_calls (error : exception)
    (context user : option (gmap string value))
    (tags : option (list (string * string)))
    (extra : option (list (string * value)))
    (level : string) : list sdk_call :=
  match user with
  | Some u => if bool_decide (u = ∅) then [] else [ScopeSetUser u]
  | None => []
  end
  ++ map (fun kv => ScopeSetTag (fst kv) (snd kv)) (default [] tags)
  ++ map (fun kv => ScopeSetExtra (fst kv) (snd kv)) (default [] extra)
  ++ match context with
     | Some c => if bool_decide (c = ∅) then [] else [ScopeSetContext "custom" c]
     | None => []
     end
  ++ [ScopeSetLevel level; CaptureException error].

(** The calls [capture_message] makes inside its scope when none raises. *)
Definition capture_message_calls (message level : string)
    (tags : option (list (string * string)))
    (extra : option (list (string * value))) : list sdk_call :=
  map (fun kv => ScopeSetTag (fst kv) (snd kv)) (default [] tags)
  ++ map (fun kv => ScopeSetExtra (fst kv) (snd kv)) (default [] extra)
  ++ [ScopeSetLevel level; CaptureMessage message].

(** Of a sequence of calls, those made: all up to the first that raises,
    that one included. *)
Fixpoint made (sdk : sdk_call -> option exception) (cs : list sdk_call)
  : list sdk_call :=
  match cs with
  | [] => []
  | c :: rest =>
      c :: match sdk c with
           | None => made sdk rest
           | Some _ => []
           end
  end.

(** The outcome of a sequence of calls: what the first raising call raises. *)
Fixpoint sequence_outcome (sdk : sdk_call -> option exception) (cs : list sdk_call)
  : outcome unit :=
  match cs with
  | [] => Returns tt
  | c :: rest =>
      match sdk c with
      | None => sequence_outcome sdk rest
      | Some e => Raises e
      end
  end.

(** [m] makes the calls [cs] on the SDK, in order, up to the first that
    raises, whose exception it raises; it touches nothing else. *)
Definition performs (sdk : sdk_call -> option exception) {A : Type}
    (m : run A) (cs : list sdk_call) (a : A) : Prop :=
  forall p,
    m p = (match sequence_outcome sdk cs with
           | AppInsights.Returns _ => Returns a
           | AppInsights.Raises e => Raises e
           end,
           mk_process (env p) (printed p) (sdk_calls p ++ made sdk cs)).

(** An SDK none of whose calls raises. *)
Definition sdk_returns : sdk_call -> option exception := fun _ => None.

(** An SDK that rejects the DSN at [init] and fails to send a capture. *)
Definition sdk_down : sdk_call -> option exception := fun c =>
  match c with
  | Init _ => Some (AppInsights.mk_exception "BadDsn" "Unsupported scheme ''" true)
  | CaptureException _ =>
      Some (AppInsights.mk_exception "RuntimeError" "transport closed" true)
  | _ => None
  end.

(** An SDK with no hub to push a scope on. *)
Definition sdk_without_hub : sdk_call -> option exception := fun c =>
  match c with
  | PushScope => Some (AppInsights.mk_exception "RuntimeError" "no hub" true)
  | _ => None
  end.

(** An SDK whose scope manager fails on the way out. *)
Definition sdk_bad_exit : sdk_call -> option exception := fun c =>
  match c with
  | PopScope => Some (AppInsights.mk_exception "RuntimeError" "scope lost" true)
  | _ => None
  end.

End SentrySdk.

(* ===================================================================== *)
(** * Part II: properties                                                *)
(* ===================================================================== *)

(** ** The string primitives meet their Python meaning *)
Module PyFacts.
Import Py.

Lemma startswith_app (p s : string) :
  startswith p s = true <-> exists post, s = p +:+ post.
Proof.
  revert s. induction p as [|a p IH]; intros s; simpl.
  - split; [intros _; by exists s | done].
  - destruct s as [|b s]; simpl.
    + split; [done | intros [post H]; discriminate H].
    + rewrite andb_true_iff, Ascii.eqb_eq, IH. split.
      * intros [-> [post ->]]. by exists post.
      * intros [post H]. injection H as -> ->. split; [done | by exists post].
Qed.

(** [contains needle hay] holds exactly when [needle] occurs in [hay]. *)
Lemma contains_occurs (needle hay : string) :
  contains needle hay = true <->
  exists pre post, hay = pre +:+ needle +:+ post.
Proof.
  induction hay as [|c hay IH]; simpl.
  - rewrite orb_false_r, startswith_app. split.
    + intros [post H]. by exists "", post.
    + intros [pre [post H]]. destruct pre; [by exists post | discriminate H].
  - rewrite orb_true_iff, IH, startswith_app. split.
    + intros [[post H] | [pre [post H]]].
      * by exists "", post.
      * exists (String c pre), post. simpl. by rewrite H.
    + intros [pre [post H]]. destruct pre as [|c' pre]; simpl in H.
      * left. by exists post.
      * right. exists pre, post. by injection H.
Qed.

(** Where [old] does not occur, [replace] returns its argument. *)
Lemma replace_absent (old new s : string) :
  contains old s = false -> replace old new s = s.
Proof.
  destruct old as [|a old]; [by destruct s |].
  unfold replace. generalize (String a old) as o. intros o.
  induction s as [|c s IH]; [done |].
  intros H. change (contains o (String c s))
    with (startswith o (String c s) || contains o s) in H.
  apply orb_false_iff in H as [Hp Hc].
  cbn [replace_from]. rewrite Hp. f_equal. by apply IH.
Qed.

(** Binding a returned value continues with it. *)
Lemma bind_Return {A B : Type} (a : A) (f : A -> result B) :
  (Return a ≫= f) = f a.
Proof. reflexivity. Qed.

(** A bind returns only through a returned first part. *)
Lemma bind_inv {A B : Type} (m : result A) (f : A -> result B) (b : B) :
  (m ≫= f) = Return b -> exists a, m = Return a /\ f a = Return b.
Proof. destruct m as [a|e]; [by exists a | discriminate]. Qed.

(** *** Lengths under replacement, and lower case *)

Lemma length_append (a b : string) :
  String.length (a +:+ b) = String.length a + String.length b.
Proof. induction a as [|c a IH]; simpl; [done | by rewrite IH]. Qed.

(** A replacement by something at least as long never shortens: after a
    match, the scan drops what is left of the match and no more. *)
Lemma replace_from_length (old new : string) (skip : nat) (s : string) :
  0 < String.length old <= String.length new ->
  String.length s - skip <= String.length (replace_from old new skip s).
Proof.
  intros Hlen. revert skip. induction s as [|c s IH]; intros skip; [simpl; lia |].
  cbn [replace_from]. destruct skip as [|k].
  - destruct (startswith old (String c s)).
    + rewrite length_append. specialize (IH (String.length old - 1)).
      cbn [String.length]. lia.
    + specialize (IH 0). cbn [String.length]. lia.
  - specialize (IH k). cbn [String.length]. lia.
Qed.

(** A replacement by something longer lengthens, where [old] occurs. *)
Lemma replace_from_longer (old new s : string) :
  0 < String.length old < String.length new ->
  contains old s = true ->
  String.length s < String.length (replace_from old new 0 s).
Proof.
  intros Hlen. induction s as [|c s IH].
  - destruct old; [simpl in Hlen; lia | discriminate].
  - change (contains old (String c s))
      with (startswith old (String c s) || contains old s).
    cbn [replace_from]. destruct (startswith old (String c s)); simpl orb.
    + intros _. rewrite length_append.
      pose proof (replace_from_length old new (String.length old - 1) s).
      cbn [String.length]. lia.
    + intros H. specialize (IH H). cbn [String.length]. lia.
Qed.

Lemma lower_append (a b : string) : lower (a +:+ b) = lower a +:+ lower b.
Proof. induction a as [|c a IH]; simpl; [done | by rewrite IH]. Qed.

End PyFacts.

(** ** sentry.py *)
Module SentryFacts.
Import Py Sentry PyFacts.

(** *** The extra-data loop *)

Lemma redact_keys_lookup (ks : list string) (m : gmap string value) (k : string) :
  redact_keys ks m !! k =
  if sensitive_key k && bool_decide (k ∈ ks) then Some REDACTED else m !! k.
Proof.
  revert m. induction ks as [|a ks IH]; intros m.
  - by rewrite andb_false_r.
  - change (redact_keys (a :: ks) m)
      with (redact_keys ks (if sensitive_key a then <[a := REDACTED]> m else m)).
    rewrite IH. destruct (decide (k = a)) as [->|Hne].
    + assert (bool_decide (a ∈ a :: ks) = true) as ->.
      { apply bool_decide_eq_true. apply list_elem_of_here. }
      rewrite andb_true_r. destruct (sensitive_key a); simpl; [|done].
      destruct (bool_decide (a ∈ ks)); by rewrite ?lookup_insert_eq.
    + assert (bool_decide (k ∈ a :: ks) = bool_decide (k ∈ ks)) as ->.
      { apply bool_decide_ext. rewrite elem_of_cons.
        split; [by intros [?|?] | by right]. }
      destruct (sensitive_key k && bool_decide (k ∈ ks)); [done |].
      destruct (sensitive_key a); by rewrite ?lookup_insert_ne.
Qed.

Lemma elem_of_keys (m : gmap string value) (k : string) :
  k ∈ (fst <$> map_to_list m) <-> is_Some (m !! k).
Proof.
  rewrite list_elem_of_fmap. split.
  - intros [[k' v] [-> H]]. apply elem_of_map_to_list in H. by exists v.
  - intros [v H]. exists (k, v). split; [done | by apply elem_of_map_to_list].
Qed.

Lemma remove_sensitive_extra_lookup (m : gmap string value) :
  exists m', remove_sensitive_extra (VDict m) = Return (VDict m') /\
    forall k, m' !! k =
      if sensitive_key k then (fun _ => REDACTED) <$> m !! k else m !! k.
Proof.
  eexists. split; [reflexivity |]. intros k.
  rewrite redact_keys_lookup. destruct (sensitive_key k); [|done]. simpl.
  case_bool_decide as H; rewrite elem_of_keys in H.
  - by destruct H as [v ->].
  - apply eq_None_not_Some in H. by rewrite H.
Qed.

(** *** Each block on a record of the expected shape

    The block returns, and the mapping it returns is described key by
    key. *)

Lemma absent_or_dict (o : option value) :
  absent_or is_dict o = true -> o = None \/ exists m, o = Some (VDict m).
Proof. destruct o as [[]|]; simpl; try discriminate; eauto. Qed.

Lemma remove_authorization_headers_lookup (m : gmap string value) :
  absent_or is_dict (m !! "headers") = true ->
  exists m',
    remove_authorization_headers (VDict m) = Return (VDict m') /\
    m' !! "headers" =
      match m !! "headers" with
      | Some (VDict h) => Some (VDict (without_credentials h))
      | o => o
      end /\
    forall k, k <> "headers" -> m' !! k = m !! k.
Proof.
  intros [H | [h H]]%absent_or_dict;
    unfold remove_authorization_headers; simpl; rewrite H; simpl.
  - exists m. by rewrite H.
  - eexists. split; [reflexivity |]. rewrite lookup_insert_eq.
    split; [done |]. intros k Hk. by rewrite lookup_insert_ne.
Qed.

Lemma sanitize_query_string_lookup (m : gmap string value) :
  absent_or is_str_or_none (m !! "query_string") = true ->
  exists m',
    sanitize_query_string (VDict m) = Return (VDict m') /\
    m' !! "query_string" =
      match m !! "query_string" with
      | Some (VStr q) => Some (VStr (if String.eqb q "" then q else masked_query q))
      | o => o
      end /\
    forall k, k <> "query_string" -> m' !! k = m !! k.
Proof.
  intros H. unfold sanitize_query_string. simpl.
  destruct (m !! "query_string") as [[| | | | q | |]|] eqn:Eq; simpl in *;
    try discriminate H; try (exists m; by rewrite Eq).
  destruct (String.eqb_spec q "") as [->|Hq]; simpl.
  - exists m. by rewrite Eq.
  - eexists. split; [reflexivity |]. rewrite lookup_insert_eq.
    split; [done |]. intros k Hk. by rewrite lookup_insert_ne.
Qed.

Lemma request_block_lookup (m : gmap string value) :
  request_shaped (VDict m) = true ->
  exists m',
    remove_sensitive_request_data (VDict m) = Return (VDict m') /\
    m' !! "headers" =
      match m !! "headers" with
      | Some (VDict h) => Some (VDict (without_credentials h))
      | o => o
      end /\
    m' !! "query_string" =
      match m !! "query_string" with
      | Some (VStr q) => Some (VStr (if String.eqb q "" then q else masked_query q))
      | o => o
      end /\
    forall k, k <> "headers" -> k <> "query_string" -> m' !! k = m !! k.
Proof.
  simpl. intros [Hh Hq]%andb_true_iff. unfold remove_sensitive_request_data.
  destruct (remove_authorization_headers_lookup m Hh) as (m1 & -> & Hh1 & H1).
  rewrite bind_Return.
  destruct (sanitize_query_string_lookup m1) as (m2 & -> & Hq2 & H2).
  { by rewrite H1. }
  exists m2. split; [done |]. rewrite H2, Hh1 by done.
  rewrite Hq2, H1 by done. repeat split.
  intros k Hk1 Hk2. by rewrite H2, H1.
Qed.

Lemma sanitize_database_lookup (m : gmap string value) :
  absent_or is_dict (m !! "database") = true ->
  exists m',
    sanitize_database (VDict m) = Return (VDict m') /\
    m' !! "database" =
      match m !! "database" with
      | Some (VDict db) =>
          Some (VDict (if bool_decide (is_Some (db !! "connection_string"))
                       then <[ "connection_string" := REDACTED ]> db else db))
      | o => o
      end /\
    forall k, k <> "database" -> m' !! k = m !! k.
Proof.
  intros [H | [d H]]%absent_or_dict;
    unfold sanitize_database; simpl; rewrite H; simpl.
  - exists m. by rewrite H.
  - case_bool_decide; simpl.
    + eexists. split; [reflexivity |]. rewrite lookup_insert_eq.
      split; [done |]. intros k Hk. by rewrite lookup_insert_ne.
    + exists m. by rewrite H.
Qed.

Lemma sanitize_stripe_lookup (m : gmap string value) :
  absent_or is_dict (m !! "stripe") = true ->
  exists m',
    sanitize_stripe (VDict m) = Return (VDict m') /\
    m' !! "stripe" =
      match m !! "stripe" with
      | Some (VDict stripe) =>
          Some (VDict (delete "api_key" (delete "secret_key" stripe)))
      | o => o
      end /\
    forall k, k <> "stripe" -> m' !! k = m !! k.
Proof.
  intros [H | [s H]]%absent_or_dict;
    unfold sanitize_stripe; simpl; rewrite H; simpl.
  - exists m. by rewrite H.
  - eexists. split; [reflexivity |]. rewrite lookup_insert_eq.
    split; [done |]. intros k Hk. by rewrite lookup_insert_ne.
Qed.

Lemma contexts_block_lookup (m : gmap string value) :
  contexts_shaped (VDict m) = true ->
  exists m',
    remove_sensitive_context (VDict m) = Return (VDict m') /\
    m' !! "database" =
      match m !! "database" with
      | Some (VDict db) =>
          Some (VDict (if bool_decide (is_Some (db !! "connection_string"))
                       then <[ "connection_string" := REDACTED ]> db else db))
      | o => o
      end /\
    m' !! "stripe" =
      match m !! "stripe" with
      | Some (VDict stripe) =>
          Some (VDict (delete "api_key" (delete "secret_key" stripe)))
      | o => o
      end /\
    forall k, k <> "database" -> k <> "stripe" -> m' !! k = m !! k.
Proof.
  simpl. intros [Hd Hs]%andb_true_iff. unfold remove_sensitive_context.
  destruct (sanitize_database_lookup m Hd) as (m1 & -> & Hd1 & H1).
  rewrite bind_Return.
  destruct (sanitize_stripe_lookup m1) as (m2 & -> & Hs2 & H2).
  { by rewrite H1. }
  exists m2. split; [done |]. rewrite H2, Hd1 by done.
  rewrite Hs2, H1 by done. repeat split.
  intros k Hk1 Hk2. by rewrite H2, H1.
Qed.

(** *** Each block run on its own result *)

Lemma without_credentials_idempotent (h : gmap string value) :
  without_credentials (without_credentials h) = without_credentials h.
Proof.
  apply map_eq. intros k. unfold without_credentials.
  rewrite !lookup_delete. by repeat case_decide.
Qed.

Lemma masked_query_absent (q : string) :
  contains "token=" q = false -> contains "api_key=" q = false ->
  masked_query q = q.
Proof.
  intros Ht Ha. unfold masked_query.
  rewrite (replace_absent "token=" _ q Ht). by apply replace_absent.
Qed.

(** The request block, run on its own result, returns it, when the query
    string holds neither key. *)
Lemma request_block_idempotent (request : value) :
  request_shaped request = true ->
  (forall m q, request = VDict m -> m !! "query_string" = Some (VStr q) ->
     contains "token=" q = false /\ contains "api_key=" q = false) ->
  exists request',
    remove_sensitive_request_data request = Return request' /\
    request_shaped request' = true /\
    remove_sensitive_request_data request' = Return request'.
Proof.
  destruct request as [| | | | | |m]; try discriminate. intros Hshape Hfree.
  destruct (request_block_lookup m Hshape) as (m' & Hret & Hh & Hq & Hk).
  assert (request_shaped (VDict m') = true) as Hshape'.
  { simpl in *. apply andb_true_iff in Hshape as [H1 H2].
    rewrite Hh, Hq. apply andb_true_iff. split.
    - by destruct (m !! "headers") as [[]|].
    - by destruct (m !! "query_string") as [[]|]. }
  exists (VDict m'). split; [done |]. split; [done |].
  destruct (request_block_lookup m' Hshape') as (m'' & Hret' & Hh' & Hq' & Hk').
  rewrite Hret'. do 2 f_equal. apply map_eq. intros k.
  destruct (decide (k = "headers")) as [->|Hne1].
  { rewrite Hh', Hh. destruct (m !! "headers") as [[]|]; try done.
    by rewrite without_credentials_idempotent. }
  destruct (decide (k = "query_string")) as [->|Hne2]; [|by apply Hk'].
  rewrite Hq', Hq. destruct (m !! "query_string") as [[| | | | q | |]|] eqn:E;
    try done.
  destruct (Hfree m q eq_refl E) as [Ht Ha].
  assert ((if String.eqb q "" then q else masked_query q) = q) as Hsame.
  { rewrite (masked_query_absent q Ht Ha). by destruct (String.eqb q ""). }
  by rewrite !Hsame.
Qed.

Lemma extra_block_idempotent (extra : value) :
  is_dict extra = true ->
  exists extra',
    remove_sensitive_extra extra = Return extra' /\
    is_dict extra' = true /\
    remove_sensitive_extra extra' = Return extra'.
Proof.
  destruct extra as [| | | | | |m]; try discriminate. intros _.
  destruct (remove_sensitive_extra_lookup m) as (m' & Hret & Hk).
  exists (VDict m'). split; [done |]. split; [done |].
  destruct (remove_sensitive_extra_lookup m') as (m'' & Hret' & Hk').
  rewrite Hret'. do 2 f_equal. apply map_eq. intros k.
  rewrite Hk', Hk. destruct (sensitive_key k); [|done].
  by destruct (m !! k).
Qed.

Lemma contexts_block_idempotent (contexts : value) :
  contexts_shaped contexts = true ->
  exists contexts',
    remove_sensitive_context contexts = Return contexts' /\
    contexts_shaped contexts' = true /\
    remove_sensitive_context contexts' = Return contexts'.
Proof.
  destruct contexts as [| | | | | |m]; try discriminate. intros Hshape.
  destruct (contexts_block_lookup m Hshape) as (m' & Hret & Hd & Hs & Hk).
  assert (contexts_shaped (VDict m') = true) as Hshape'.
  { simpl in *. apply andb_true_iff in Hshape as [H1 H2].
    rewrite Hd, Hs. apply andb_true_iff. split.
    - by destruct (m !! "database") as [[]|].
    - by destruct (m !! "stripe") as [[]|]. }
  exists (VDict m'). split; [done |]. split; [done |].
  destruct (contexts_block_lookup m' Hshape') as (m'' & Hret' & Hd' & Hs' & Hk').
  rewrite Hret'. do 2 f_equal. apply map_eq. intros k.
  destruct (decide (k = "database")) as [->|Hne1].
  { rewrite Hd', Hd. destruct (m !! "database") as [[| | | | | |db]|]; try done.
    do 2 f_equal. case_bool_decide as Hc.
    - rewrite lookup_insert_eq, bool_decide_eq_true_2 by eauto.
      by rewrite insert_insert_eq.
    - by rewrite bool_decide_eq_false_2. }
  destruct (decide (k = "stripe")) as [->|Hne2]; [|by apply Hk'].
  rewrite Hs', Hs. destruct (m !! "stripe") as [[| | | | | |stripe]|]; try done.
  do 2 f_equal. apply map_eq. intros j.
  rewrite !lookup_delete. by repeat case_decide.
Qed.

(** *** Each block returns *)

Lemma request_block_shaped (request : value) :
  request_shaped request = true ->
  exists request', remove_sensitive_request_data request = Return request'.
Proof.
  destruct request as [| | | | | |m]; try discriminate. intros H.
  destruct (request_block_lookup m H) as (m' & Hret & _). eauto.
Qed.

Lemma extra_block_shaped (extra : value) :
  is_dict extra = true ->
  exists extra', remove_sensitive_extra extra = Return extra'.
Proof.
  destruct extra as [| | | | | |m]; try discriminate. intros _.
  destruct (remove_sensitive_extra_lookup m) as (m' & Hret & _). eauto.
Qed.

Lemma contexts_block_shaped (contexts : value) :
  contexts_shaped contexts = true ->
  exists contexts', remove_sensitive_context contexts = Return contexts'.
Proof.
  destruct contexts as [| | | | | |m]; try discriminate. intros H.
  destruct (contexts_block_lookup m H) as (m' & Hret & _). eauto.
Qed.

(** *** The three guarded blocks of the filter *)

(** A guarded block touches the event at its own key only. *)
Lemma on_key_applied (key : string) (block : value -> result value)
    (shape : value -> bool) (event : gmap string value) :
  (forall sub, shape sub = true -> exists sub', block sub = Return sub') ->
  absent_or shape (event !! key) = true ->
  exists event',
    on_key key block event = Return event' /\
    block_applied block key event event' /\
    forall k, k <> key -> event' !! k = event !! k.
Proof.
  intros Hblock Hshape. unfold on_key, block_applied.
  destruct (event !! key) as [sub|] eqn:Hsub; simpl in *.
  - destruct (Hblock sub Hshape) as [sub' Hsub']. rewrite Hsub'. simpl.
    eexists. split; [reflexivity |]. split.
    + exists sub'. by rewrite lookup_insert_eq.
    + intros k Hk. by rewrite lookup_insert_ne.
  - exists event. by rewrite Hsub.
Qed.

Lemma block_applied_frame (block : value -> result value) (key : string)
    (a b a' b' : gmap string value) :
  a' !! key = a !! key -> b' !! key = b !! key ->
  block_applied block key a b -> block_applied block key a' b'.
Proof. unfold block_applied. by intros -> ->. Qed.

(** A guarded block whose sub-record is a fixed point of the block leaves
    the event as it is. *)
Lemma on_key_fixed (key : string) (block : value -> result value)
    (event : gmap string value) :
  (forall sub, event !! key = Some sub -> block sub = Return sub) ->
  on_key key block event = Return event.
Proof.
  intros H. unfold on_key. destruct (event !! key) as [sub|] eqn:E; [|done].
  rewrite (H sub eq_refl). simpl. by rewrite insert_id.
Qed.

(** On an event of the expected shape the filter returns the record, with
    each of the three blocks applied at its key and every other key as it
    was. *)
Lemma before_send_filter_blocks (event hint : gmap string value) :
  event_shaped event = true ->
  exists event',
    before_send_filter event hint = Return (Keep event') /\
    block_applied remove_sensitive_request_data "request" event event' /\
    block_applied remove_sensitive_extra "extra" event event' /\
    block_applied remove_sensitive_context "contexts" event event' /\
    forall k, k <> "request" -> k <> "extra" -> k <> "contexts" ->
              event' !! k = event !! k.
Proof.
  intros [[Hr He]%andb_true_iff Hc]%andb_true_iff.
  unfold before_send_filter.
  destruct (on_key_applied "request" remove_sensitive_request_data
              request_shaped event request_block_shaped Hr)
    as (e1 & -> & A1 & F1).
  rewrite bind_Return.
  destruct (on_key_applied "extra" remove_sensitive_extra
              is_dict e1 extra_block_shaped) as (e2 & -> & A2 & F2).
  { by rewrite F1. }
  rewrite bind_Return.
  destruct (on_key_applied "contexts" remove_sensitive_context
              contexts_shaped e2 contexts_block_shaped) as (e3 & -> & A3 & F3).
  { by rewrite F2, F1. }
  rewrite bind_Return. exists e3. split; [done |]. repeat split.
  - apply (block_applied_frame _ _ event e1); [done | | done].
    by rewrite F3, F2.
  - apply (block_applied_frame _ _ e1 e2); [by rewrite F1 | by rewrite F3 | done].
  - apply (block_applied_frame _ _ e2 e3); [by rewrite F2, F1 | done | done].
  - intros k H1 H2 H3. by rewrite F3, F2, F1.
Qed.

(** *** The breadcrumb filter on a string URL *)


Lemma eq_str_true (v : value) (s : string) :
  eq_str v s = true <-> v = VStr s.
Proof.
  destruct v; simpl; try (split; [discriminate | done]).
  rewrite String.eqb_eq. split; congruence.
Qed.


(** *** The claims *)

(** C1 (the code departs from the claim). On the query string of the
    scenario, ["api_key=ABC123&page=2"], the filter returns
    ["api_key=[REDACTED]ABC123&page=2"]: the mask is written after the key
    and the value [ABC123] stays in the string. The result is not the
    ["api_key=[REDACTED]&page=2"] of the scenario. *)
Theorem query_string_keeps_the_value :
  before_send_filter (query_event "api_key=ABC123&page=2") ∅
  = Return (Keep (query_event "api_key=[REDACTED]ABC123&page=2")) /\
  before_send_filter (query_event "api_key=ABC123&page=2") ∅
  <> Return (Keep (query_event "api_key=[REDACTED]&page=2")).
Proof.
  assert (before_send_filter (query_event "api_key=ABC123&page=2") ∅
          = Return (Keep (query_event "api_key=[REDACTED]ABC123&page=2"))) as E.
  { vm_compute. reflexivity. }
  split; [exact E |]. rewrite E. intros H.
  apply (f_equal (fun r => match r with
                           | Return (Some m) => m !! "request"
                           | _ => None
                           end)) in H.
  vm_compute in H. discriminate H.
Qed.

(** C2 (the code departs from the claim). On the headers of the scenario,
    [{Authorization: "Bearer x", "User-Agent": "curl"}], the filter returns
    the event as it was: the key [Authorization], spelled with a capital,
    is still there. *)
Theorem capitalised_header_survives :
  let headers : gmap string value :=
    <[ "Authorization" := VStr "Bearer x" ]> {[ "User-Agent" := VStr "curl" ]} in
  before_send_filter (headers_event headers) ∅
  = Return (Keep (headers_event headers)) /\
  headers !! "Authorization" = Some (VStr "Bearer x").
Proof. split; vm_compute; reflexivity. Qed.

(** C3 (the code departs from the claim). On the query string ["token=abc"]
    one pass gives ["token=[REDACTED]abc"] and a second pass on that result
    gives ["token=[REDACTED][REDACTED]abc"]: the two records differ. *)
Theorem second_pass_masks_again :
  before_send_filter (query_event "token=abc") ∅
  = Return (Keep (query_event "token=[REDACTED]abc")) /\
  before_send_filter (query_event "token=[REDACTED]abc") ∅
  = Return (Keep (query_event "token=[REDACTED][REDACTED]abc")) /\
  query_event "token=[REDACTED][REDACTED]abc" <> query_event "token=[REDACTED]abc".
Proof.
  split; [vm_compute; reflexivity |]. split; [vm_compute; reflexivity |].
  intros H. apply (f_equal (fun m => m !! "request")) in H.
  vm_compute in H. discriminate H.
Qed.

(** Two mappings with an entry at the same keys have the same keys. *)
Lemma same_keys (m m' : gmap string value) :
  (forall k, is_Some (m' !! k) <-> is_Some (m !! k)) ->
  dom m' =@{gset string} dom m.
Proof. intros H. apply set_eq. intros k. by rewrite !elem_of_dom. Qed.

(** The three header keys are in lower case. *)
Lemma credential_header_is_lower (key : string) :
  key ∈ credential_headers -> lower key ∈ credential_headers.
Proof.
  unfold credential_headers. intros H.
  repeat (apply elem_of_cons in H as [-> | H]; [vm_compute; set_solver |]).
  by apply not_elem_of_nil in H.
Qed.

(** Lines 82-84, key by key. *)
Lemma without_credentials_lookup (headers : gmap string value) (key : string) :
  without_credentials headers !! key =
  if bool_decide (key ∈ credential_headers) then None else headers !! key.
Proof.
  unfold without_credentials, credential_headers.
  rewrite !lookup_delete. case_bool_decide as Hin.
  - repeat (apply elem_of_cons in Hin as [-> | Hin]; [by repeat case_decide |]).
    by apply not_elem_of_nil in Hin.
  - repeat case_decide; try done; subst key; exfalso; apply Hin;
      repeat ((by apply list_elem_of_here) || apply list_elem_of_further).
Qed.

(** C4 (the claim fails on the code). On the event whose [request] is
    [None] the filter does not return the record: the test
    ["headers" in request] raises [TypeError]. *)
Lemma null_request_is_not_kept :
  ~ exists event',
      before_send_filter {[ "request" := VNone ]} ∅ = Return (Keep event').
Proof. intros [event' H]. vm_compute in H. discriminate H. Qed.

(** C4, amended. [before_send_filter] never returns the drop signal, on any
    event. On every event of the expected shape it returns, keeping a record
    with the keys of the event and, outside [request], [extra] and
    [contexts], its entries. In that record the request has the keys it had
    and its entries outside [headers] and [query_string]; its headers hold
    nothing at ["authorization"], ["cookie"] and ["x-api-key"] and what they
    held at every key whose lower-case form is none of the three; its query
    string is still a string or [None], and is the one it was where it
    holds neither ["token="] nor ["api_key="]. Every entry of [extra] whose
    key is sensitive holds the mask, and every other entry is as it was.
    In [contexts] the connection string of [database], where there is one,
    holds the mask, [stripe] has lost [secret_key] and [api_key], and all
    else is as it was. On an event whose [request] is no container the
    filter raises [TypeError] instead of returning. *)
Theorem before_send_filter_never_drops (event hint : gmap string value) :
  before_send_filter event hint <> Return Drop /\
  (event_shaped event = true ->
   exists event',
     before_send_filter event hint = Return (Keep event') /\
     dom event' =@{gset string} dom event /\
     (forall key, key <> "request" -> key <> "extra" -> key <> "contexts" ->
        event' !! key = event !! key) /\
     (forall request, event !! "request" = Some (VDict request) ->
        exists request',
          event' !! "request" = Some (VDict request') /\
          dom request' =@{gset string} dom request /\
          (forall key, key <> "headers" -> key <> "query_string" ->
             request' !! key = request !! key) /\
          (forall headers, request !! "headers" = Some (VDict headers) ->
             exists headers',
               request' !! "headers" = Some (VDict headers') /\
               (forall key, key ∈ credential_headers -> headers' !! key = None) /\
               (forall key, lower key ∉ credential_headers ->
                  headers' !! key = headers !! key)) /\
          (forall query, request !! "query_string" = Some query ->
             exists query',
               request' !! "query_string" = Some query' /\
               is_str_or_none query' = true /\
               (query = VNone -> query' = VNone) /\
               (forall q, query = VStr q ->
                  contains "token=" q = false -> contains "api_key=" q = false ->
                  query' = VStr q))) /\
     (forall extra, event !! "extra" = Some (VDict extra) ->
        exists extra',
          event' !! "extra" = Some (VDict extra') /\
          forall key,
            extra' !! key =
            if sensitive_key key then (fun _ => REDACTED) <$> extra !! key
            else extra !! key) /\
     (forall contexts, event !! "contexts" = Some (VDict contexts) ->
        exists contexts',
          event' !! "contexts" = Some (VDict contexts') /\
          contexts' !! "database" =
            match contexts !! "database" with
            | Some (VDict db) =>
                Some (VDict (if bool_decide (is_Some (db !! "connection_string"))
                             then <[ "connection_string" := REDACTED ]> db else db))
            | o => o
            end /\
          contexts' !! "stripe" =
            match contexts !! "stripe" with
            | Some (VDict stripe) =>
                Some (VDict (delete "api_key" (delete "secret_key" stripe)))
            | o => o
            end /\
          (forall key, key <> "database" -> key <> "stripe" ->
             contexts' !! key = contexts !! key))) /\
  (forall v, event !! "request" = Some v -> is_scalar v = true ->
     before_send_filter event hint = Raise TypeError).
Proof.
  split; [|split].
  - unfold before_send_filter. intros H.
    apply bind_inv in H as [e1 [_ H]].
    apply bind_inv in H as [e2 [_ H]].
    apply bind_inv in H as [e3 [_ H]].
    discriminate H.
  - intros Hs.
    destruct (before_send_filter_blocks event hint Hs)
      as (event' & Hret & Hr & Hx & Hc & Hframe).
    apply andb_true_iff in Hs as [[Hsr Hsx]%andb_true_iff Hsc].
    exists event'. split; [exact Hret |]. split; [|split; [exact Hframe |]].
    { apply same_keys. intros k. unfold block_applied in Hr, Hx, Hc.
      destruct (decide (k = "request")) as [-> | Hk1].
      { destruct (event !! "request"); [|by rewrite Hr].
        destruct Hr as (s & _ & ->). split; eauto. }
      destruct (decide (k = "extra")) as [-> | Hk2].
      { destruct (event !! "extra"); [|by rewrite Hx].
        destruct Hx as (s & _ & ->). split; eauto. }
      destruct (decide (k = "contexts")) as [-> | Hk3].
      { destruct (event !! "contexts"); [|by rewrite Hc].
        destruct Hc as (s & _ & ->). split; eauto. }
      by rewrite Hframe. }
    split; [|split].
    + intros request Hreq. unfold block_applied in Hr. rewrite Hreq in Hr.
      destruct Hr as (r' & Hblock & Hlook).
      rewrite Hreq in Hsr. simpl in Hsr.
      destruct (request_block_lookup request Hsr) as (m' & Hblock' & Hh & Hq & Hrest).
      rewrite Hblock' in Hblock. injection Hblock as <-.
      apply andb_true_iff in Hsr as [Hsh Hsq].
      exists m'. split; [exact Hlook |]. split; [|split; [exact Hrest |split]].
      * apply same_keys. intros k.
        destruct (decide (k = "headers")) as [-> | Hk1].
        { rewrite Hh. destruct (request !! "headers") as [[]|]; split; eauto. }
        destruct (decide (k = "query_string")) as [-> | Hk2].
        { rewrite Hq. destruct (request !! "query_string") as [[]|]; split; eauto. }
        by rewrite Hrest.
      * intros headers Hheaders. rewrite Hheaders in Hh.
        exists (without_credentials headers). split; [exact Hh |]. split.
        -- intros key Hkey. rewrite without_credentials_lookup.
           by rewrite bool_decide_eq_true_2.
        -- intros key Hkey. rewrite without_credentials_lookup.
           rewrite bool_decide_eq_false_2; [done |].
           intros Hin. by apply Hkey, credential_header_is_lower.
      * intros query Hquery. rewrite Hquery in Hq, Hsq. simpl in Hsq.
        destruct query as [| | | |q| |]; try discriminate Hsq.
        -- exists VNone. by repeat split.
        -- eexists. split; [exact Hq |]. split; [done |]. split; [done |].
           intros q' [= <-] Ht Ha. f_equal.
           destruct (String.eqb q ""); [done |].
           unfold masked_query. by rewrite (replace_absent "token=") , replace_absent.
    + intros extra Hextra. unfold block_applied in Hx. rewrite Hextra in Hx.
      destruct Hx as (x' & Hblock & Hlook).
      destruct (remove_sensitive_extra_lookup extra) as (m' & Hblock' & Hkeys).
      rewrite Hblock' in Hblock. injection Hblock as <-.
      exists m'. by split.
    + intros contexts Hcontexts. unfold block_applied in Hc. rewrite Hcontexts in Hc.
      destruct Hc as (c' & Hblock & Hlook).
      rewrite Hcontexts in Hsc. simpl in Hsc.
      destruct (contexts_block_lookup contexts Hsc) as (m' & Hblock' & Hd & Hst & Hrest).
      rewrite Hblock' in Hblock. injection Hblock as <-.
      exists m'. by repeat split.
  - intros v Hreq Hv. unfold before_send_filter, on_key. rewrite Hreq.
    by destruct v.
Qed.

Lemma before_send_filter_never_drops_witness :
  before_send_filter full_event ∅ <> Return Drop /\
  (exists event' extra',
     before_send_filter full_event ∅ = Return (Keep event') /\
     dom event' =@{gset string} dom full_event /\
     event' !! "extra" = Some (VDict extra') /\
     extra' !! "DB_Password" = Some REDACTED /\
     extra' !! "attempt" = Some (VInt 3)) /\
  before_send_filter {[ "request" := VInt 5 ]} ∅ = Raise TypeError.
Proof.
  split; [|split].
  - apply (before_send_filter_never_drops full_event ∅).
  - destruct (before_send_filter_never_drops full_event ∅)
      as (_ & Hkeep & _).
    destruct Hkeep as (event' & Hret & Hdom & _ & _ & Hextra & _);
      [vm_compute; reflexivity |].
    destruct (Hextra (<[ "DB_Password" := VStr "hunter2" ]>
                        {[ "attempt" := VInt 3 ]}))
      as (extra' & Hlook & Hkeys); [vm_compute; reflexivity |].
    exists event', extra'. split; [exact Hret |]. split; [exact Hdom |].
    split; [exact Hlook |]. split; rewrite Hkeys; vm_compute; reflexivity.
  - destruct (before_send_filter_never_drops {[ "request" := VInt 5 ]} ∅)
      as (_ & _ & Hraise).
    apply (Hraise (VInt 5)); vm_compute; reflexivity.
Defined.





(** *** Further properties of the filter *)

(** A block that returns a fixed point of itself on the sub-record of the
    event leaves the filtered event as it is. *)
Lemma applied_then_fixed (key : string) (block : value -> result value)
    (event event' : gmap string value) :
  (forall sub, event !! key = Some sub ->
     exists sub', block sub = Return sub' /\ block sub' = Return sub') ->
  block_applied block key event event' ->
  on_key key block event' = Return event'.
Proof.
  intros Hidem Happ. apply on_key_fixed. intros sub' Hsub'.
  unfold block_applied in Happ. destruct (event !! key) as [sub|]; [|congruence].
  destruct Happ as (x & Hx & Hlook).
  destruct (Hidem sub eq_refl) as (y & Hy & Hfix). congruence.
Qed.

(** X1. On an event of the expected shape whose request holds the non-empty
    query string [q], the filter returns the event with the query string
    [masked_query q]: ["[REDACTED]"] written after every ["token="], then
    after every ["api_key="]. A query string in which neither key occurs is
    returned as it was. *)
Theorem query_string_rule (event hint request : gmap string value) (q : string) :
  event_shaped event = true ->
  event !! "request" = Some (VDict request) ->
  request !! "query_string" = Some (VStr q) ->
  q <> "" ->
  exists event' request',
    before_send_filter event hint = Return (Keep event') /\
    event' !! "request" = Some (VDict request') /\
    request' !! "query_string" = Some (VStr (masked_query q)) /\
    (contains "token=" q = false -> contains "api_key=" q = false ->
     request' !! "query_string" = Some (VStr q)).
Proof.
  intros Hshape Hreq Hq Hne.
  destruct (before_send_filter_blocks event hint Hshape)
    as (event' & Hret & Hr & _).
  unfold block_applied in Hr. rewrite Hreq in Hr. destruct Hr as (r' & Hblock & Hlook).
  assert (request_shaped (VDict request) = true) as Hrs.
  { apply andb_true_iff in Hshape as [[H _]%andb_true_iff _].
    by rewrite Hreq in H. }
  destruct (request_block_lookup request Hrs) as (m' & Hblock' & _ & Hq' & _).
  rewrite Hblock' in Hblock. injection Hblock as <-.
  rewrite Hq in Hq'. apply String.eqb_neq in Hne. rewrite Hne in Hq'.
  exists event', m'. repeat split; try done.
  intros Ht Ha. by rewrite Hq', masked_query_absent.
Qed.

Lemma query_string_rule_witness :
  exists event' request',
    before_send_filter full_event ∅ = Return (Keep event') /\
    event' !! "request" = Some (VDict request') /\
    request' !! "query_string" = Some (VStr "page=2").
Proof.
  destruct (query_string_rule full_event ∅
              (<[ "headers" := VDict {[ "cookie" := VStr "sid=1" ]} ]>
                 {[ "query_string" := VStr "page=2" ]}) "page=2")
    as (event' & request' & Hret & Hreq & _ & Hsame);
    [vm_compute; reflexivity | vm_compute; reflexivity
    | vm_compute; reflexivity | discriminate |].
  exists event', request'. split; [exact Hret |]. split; [exact Hreq |].
  apply Hsame; vm_compute; reflexivity.
Defined.

(** X2. On an event of the expected shape whose request holds the mapping
    [headers], the filter returns the event with a mapping of headers that
    holds nothing at the keys ["authorization"], ["cookie"] and
    ["x-api-key"], spelled so, and what [headers] held at every other key. *)
Theorem header_rule (event hint request headers : gmap string value) :
  event_shaped event = true ->
  event !! "request" = Some (VDict request) ->
  request !! "headers" = Some (VDict headers) ->
  exists event' request' headers',
    before_send_filter event hint = Return (Keep event') /\
    event' !! "request" = Some (VDict request') /\
    request' !! "headers" = Some (VDict headers') /\
    forall key,
      headers' !! key =
      if bool_decide (key ∈ credential_headers) then None else headers !! key.
Proof.
  intros Hshape Hreq Hh.
  destruct (before_send_filter_blocks event hint Hshape)
    as (event' & Hret & Hr & _).
  unfold block_applied in Hr. rewrite Hreq in Hr. destruct Hr as (r' & Hblock & Hlook).
  assert (request_shaped (VDict request) = true) as Hrs.
  { apply andb_true_iff in Hshape as [[H _]%andb_true_iff _].
    by rewrite Hreq in H. }
  destruct (request_block_lookup request Hrs) as (m' & Hblock' & Hh' & _).
  rewrite Hblock' in Hblock. injection Hblock as <-. rewrite Hh in Hh'.
  exists event', m', (without_credentials headers). repeat split; try done.
  intros key. unfold without_credentials, credential_headers.
  rewrite !lookup_delete. case_bool_decide as Hin.
  - repeat (apply elem_of_cons in Hin as [-> | Hin]; [by repeat case_decide |]).
    by apply not_elem_of_nil in Hin.
  - repeat case_decide; try done; subst key; exfalso; apply Hin;
      repeat ((by apply list_elem_of_here) || apply list_elem_of_further).
Qed.

Lemma header_rule_witness :
  exists event' request' headers',
    before_send_filter full_event ∅ = Return (Keep event') /\
    event' !! "request" = Some (VDict request') /\
    request' !! "headers" = Some (VDict headers') /\
    headers' !! "cookie" = None.
Proof.
  destruct (header_rule full_event ∅
              (<[ "headers" := VDict {[ "cookie" := VStr "sid=1" ]} ]>
                 {[ "query_string" := VStr "page=2" ]})
              {[ "cookie" := VStr "sid=1" ]})
    as (event' & request' & headers' & Hret & Hreq & Hh & Hkeys);
    [vm_compute; reflexivity | vm_compute; reflexivity
    | vm_compute; reflexivity |].
  exists event', request', headers'.
  split; [exact Hret |]. split; [exact Hreq |]. split; [exact Hh |].
  rewrite Hkeys. reflexivity.
Defined.

(** X3. On an event of the expected shape whose query string, if the request
    has one, holds neither ["token="] nor ["api_key="], a second pass of the
    filter returns the record the first pass returned: the header, extra
    and context rules never undo idempotence. *)
Theorem idempotent_without_query_keys (event hint : gmap string value) :
  event_shaped event = true ->
  (forall request q,
     event !! "request" = Some (VDict request) ->
     request !! "query_string" = Some (VStr q) ->
     contains "token=" q = false /\ contains "api_key=" q = false) ->
  exists event',
    before_send_filter event hint = Return (Keep event') /\
    before_send_filter event' hint = Return (Keep event').
Proof.
  intros Hshape Hfree.
  destruct (before_send_filter_blocks event hint Hshape)
    as (event' & Hret & Hr & Hx & Hc & _).
  apply andb_true_iff in Hshape as [[Sr Sx]%andb_true_iff Sc].
  exists event'. split; [done |]. unfold before_send_filter.
  rewrite (applied_then_fixed "request" _ event event'); [| |done].
  2:{ intros sub Hsub. rewrite Hsub in Sr.
      destruct (request_block_idempotent sub Sr) as (sub' & ? & _ & ?); [|eauto].
      intros m q -> Hq. by apply (Hfree m q). }
  rewrite bind_Return.
  rewrite (applied_then_fixed "extra" _ event event'); [| |done].
  2:{ intros sub Hsub. rewrite Hsub in Sx.
      destruct (extra_block_idempotent sub Sx) as (sub' & ? & _ & ?). eauto. }
  rewrite bind_Return.
  rewrite (applied_then_fixed "contexts" _ event event'); [| |done].
  2:{ intros sub Hsub. rewrite Hsub in Sc.
      destruct (contexts_block_idempotent sub Sc) as (sub' & ? & _ & ?). eauto. }
  reflexivity.
Qed.

Lemma idempotent_without_query_keys_witness :
  exists event',
    before_send_filter full_event ∅ = Return (Keep event') /\
    before_send_filter event' ∅ = Return (Keep event').
Proof.
  apply (idempotent_without_query_keys full_event ∅).
  - vm_compute. reflexivity.
  - intros request q Hreq Hq. vm_compute in Hreq. injection Hreq as <-.
    vm_compute in Hq. injection Hq as <-. split; vm_compute; reflexivity.
Defined.


(** *** More on the rules of the filter *)

Lemma event_shaped_request (event request : gmap string value) :
  event_shaped event = true ->
  event !! "request" = Some (VDict request) ->
  request_shaped (VDict request) = true.
Proof.
  intros [[H _]%andb_true_iff _]%andb_true_iff Hreq. by rewrite Hreq in H.
Qed.

Lemma event_shaped_contexts (event contexts : gmap string value) :
  event_shaped event = true ->
  event !! "contexts" = Some (VDict contexts) ->
  contexts_shaped (VDict contexts) = true.
Proof.
  intros [_ H]%andb_true_iff Hc. by rewrite Hc in H.
Qed.

(** The query rule never shortens, and it returns its argument exactly
    where neither key occurs. *)
Lemma masked_query_length (q : string) :
  String.length q <= String.length (masked_query q).
Proof.
  unfold masked_query, replace.
  assert (String.length q - 0
          <= String.length (replace_from "token=" "token=[REDACTED]" 0 q)) as L1
    by (apply replace_from_length; simpl; lia).
  assert (String.length (replace_from "token=" "token=[REDACTED]" 0 q) - 0
          <= String.length
               (replace_from "api_key=" "api_key=[REDACTED]" 0
                  (replace_from "token=" "token=[REDACTED]" 0 q))) as L2
    by (apply replace_from_length; simpl; lia).
  lia.
Qed.

Lemma masked_query_fixed (q : string) :
  masked_query q = q <->
  contains "token=" q = false /\ contains "api_key=" q = false.
Proof.
  split; [|intros [Ht Ha]; by apply masked_query_absent].
  intros Heq. apply (f_equal String.length) in Heq.
  destruct (contains "token=" q) eqn:Ht.
  { exfalso. unfold masked_query, replace in Heq.
    assert (String.length q
            < String.length (replace_from "token=" "token=[REDACTED]" 0 q)) as L1
      by (apply replace_from_longer; [simpl; lia | done]).
    assert (String.length (replace_from "token=" "token=[REDACTED]" 0 q) - 0
            <= String.length
                 (replace_from "api_key=" "api_key=[REDACTED]" 0
                    (replace_from "token=" "token=[REDACTED]" 0 q))) as L2
      by (apply replace_from_length; simpl; lia).
    lia. }
  split; [done |]. unfold masked_query in Heq.
  rewrite (replace_absent _ _ q Ht) in Heq.
  destruct (contains "api_key=" q) eqn:Ha; [exfalso | done].
  assert (String.length q
          < String.length (replace_from "api_key=" "api_key=[REDACTED]" 0 q)) as L1
    by (apply replace_from_longer; [simpl; lia | done]).
  unfold replace in Heq. lia.
Qed.

(** X5. On an event of the expected shape whose [contexts] is a mapping, the
    filter returns the event with a [contexts] in which: the database
    context holds ["[REDACTED]"] at [connection_string] if it held anything
    there, and what it held at every other key; the stripe context holds
    nothing at [secret_key] and [api_key], and what it held at every other
    key; every other context is as it was. *)
Theorem context_rule (event hint contexts : gmap string value) :
  event_shaped event = true ->
  event !! "contexts" = Some (VDict contexts) ->
  exists event' contexts',
    before_send_filter event hint = Return (Keep event') /\
    event' !! "contexts" = Some (VDict contexts') /\
    (forall db, contexts !! "database" = Some (VDict db) ->
       exists db', contexts' !! "database" = Some (VDict db') /\
         forall key,
           db' !! key =
           if bool_decide (key = "connection_string")
           then (fun _ => REDACTED) <$> db !! key else db !! key) /\
    (forall stripe, contexts !! "stripe" = Some (VDict stripe) ->
       exists stripe', contexts' !! "stripe" = Some (VDict stripe') /\
         forall key,
           stripe' !! key =
           if bool_decide (key ∈ stripe_secrets) then None else stripe !! key) /\
    (forall key, key <> "database" -> key <> "stripe" ->
       contexts' !! key = contexts !! key).
Proof.
  intros Hshape Hctx.
  destruct (before_send_filter_blocks event hint Hshape)
    as (event' & Hret & _ & _ & Hc & _).
  unfold block_applied in Hc. rewrite Hctx in Hc.
  destruct Hc as (c' & Hblock & Hlook).
  destruct (contexts_block_lookup contexts
              (event_shaped_contexts event contexts Hshape Hctx))
    as (m' & Hblock' & Hd & Hs & Hk).
  rewrite Hblock' in Hblock. injection Hblock as <-.
  exists event', m'. split; [done |]. split; [done |]. split; [|split; [|done]].
  - intros db Hdb. rewrite Hdb in Hd. eexists. split; [exact Hd |].
    intros key. destruct (decide (key = "connection_string")) as [->|Hne].
    + rewrite (bool_decide_eq_true_2 _ eq_refl). case_bool_decide as Hc.
      * destruct Hc as [x Hx]. by rewrite lookup_insert_eq, Hx.
      * apply eq_None_not_Some in Hc. by rewrite Hc.
    + rewrite (bool_decide_eq_false_2 _ Hne).
      case_bool_decide; [by rewrite lookup_insert_ne | done].
  - intros stripe Hst. rewrite Hst in Hs. eexists. split; [exact Hs |].
    intros key. unfold stripe_secrets. rewrite !lookup_delete.
    case_bool_decide as Hin.
    + repeat (apply elem_of_cons in Hin as [-> | Hin]; [by repeat case_decide |]).
      by apply not_elem_of_nil in Hin.
    + repeat case_decide; try done; subst key; exfalso; apply Hin;
        repeat ((by apply list_elem_of_here) || apply list_elem_of_further).
Qed.

Lemma context_rule_witness :
  exists event' contexts' stripe',
    before_send_filter full_event ∅ = Return (Keep event') /\
    event' !! "contexts" = Some (VDict contexts') /\
    contexts' !! "stripe" = Some (VDict stripe') /\
    stripe' !! "api_key" = None.
Proof.
  destruct (context_rule full_event ∅
              {[ "stripe" := VDict {[ "api_key" := VStr "sk_live" ]} ]})
    as (event' & contexts' & Hret & Hctx & _ & Hstripe & _);
    [vm_compute; reflexivity | vm_compute; reflexivity |].
  destruct (Hstripe {[ "api_key" := VStr "sk_live" ]}) as (stripe' & Hs & Hkeys);
    [vm_compute; reflexivity |].
  exists event', contexts', stripe'.
  split; [exact Hret |]. split; [exact Hctx |]. split; [exact Hs |].
  rewrite Hkeys. reflexivity.
Defined.

(** X6. On an event of the expected shape the filter returns an event with
    the same top-level keys, in which every entry other than [request],
    [extra] and [contexts] is as it was, and in which the request, when
    there is one, is as it was at every key other than [headers] and
    [query_string]. *)
Theorem filter_frame (event hint : gmap string value) :
  event_shaped event = true ->
  exists event',
    before_send_filter event hint = Return (Keep event') /\
    dom event' = dom event /\
    (forall key, key <> "request" -> key <> "extra" -> key <> "contexts" ->
       event' !! key = event !! key) /\
    (forall request, event !! "request" = Some (VDict request) ->
       exists request',
         event' !! "request" = Some (VDict request') /\
         forall key, key <> "headers" -> key <> "query_string" ->
           request' !! key = request !! key).
Proof.
  intros Hshape.
  destruct (before_send_filter_blocks event hint Hshape)
    as (event' & Hret & Hr & Hx & Hc & Hframe).
  exists event'. split; [done |]. split; [|split; [done |]].
  - apply set_eq. intros key. rewrite !elem_of_dom.
    assert (forall block k, block_applied block k event event' ->
              (is_Some (event' !! k) <-> is_Some (event !! k))) as Hsome.
    { intros block k H. unfold block_applied in H.
      destruct (event !! k) as [sub|].
      - destruct H as (sub' & _ & ->). split; eauto.
      - by rewrite H. }
    destruct (decide (key = "request")) as [->|?]; [by eapply Hsome |].
    destruct (decide (key = "extra")) as [->|?]; [by eapply Hsome |].
    destruct (decide (key = "contexts")) as [->|?]; [by eapply Hsome |].
    by rewrite Hframe.
  - intros request Hreq. unfold block_applied in Hr. rewrite Hreq in Hr.
    destruct Hr as (r' & Hblock & Hlook).
    destruct (request_block_lookup request
                (event_shaped_request event request Hshape Hreq))
      as (m' & Hblock' & _ & _ & Hk).
    rewrite Hblock' in Hblock. injection Hblock as <-.
    exists m'. by split.
Qed.

Lemma filter_frame_witness :
  exists event',
    before_send_filter
      (<[ "user" := VDict {[ "email" := VStr "a@b.c" ]} ]> full_event) ∅
    = Return (Keep event') /\
    event' !! "user" = Some (VDict {[ "email" := VStr "a@b.c" ]}).
Proof.
  destruct (filter_frame
              (<[ "user" := VDict {[ "email" := VStr "a@b.c" ]} ]> full_event) ∅)
    as (event' & Hret & _ & Hframe & _); [vm_compute; reflexivity |].
  exists event'. split; [exact Hret |]. by rewrite Hframe.
Defined.


(** X7. On an event of the expected shape whose request holds the query
    string [q], the filter returns the event with a query string that is
    never shorter than [q], and that is [q] itself exactly when [q] is empty
    or holds neither ["token="] nor ["api_key="]. *)
Theorem query_string_changes_iff (event hint request : gmap string value)
    (q : string) :
  event_shaped event = true ->
  event !! "request" = Some (VDict request) ->
  request !! "query_string" = Some (VStr q) ->
  exists event' request' q',
    before_send_filter event hint = Return (Keep event') /\
    event' !! "request" = Some (VDict request') /\
    request' !! "query_string" = Some (VStr q') /\
    String.length q <= String.length q' /\
    (q' = q <->
     q = "" \/ (contains "token=" q = false /\ contains "api_key=" q = false)).
Proof.
  intros Hshape Hreq Hq.
  destruct (before_send_filter_blocks event hint Hshape)
    as (event' & Hret & Hr & _).
  unfold block_applied in Hr. rewrite Hreq in Hr.
  destruct Hr as (r' & Hblock & Hlook).
  destruct (request_block_lookup request
              (event_shaped_request event request Hshape Hreq))
    as (m' & Hblock' & _ & Hq' & _).
  rewrite Hblock' in Hblock. injection Hblock as <-. rewrite Hq in Hq'.
  eexists event', m', _. split; [done |]. split; [done |]. split; [exact Hq' |].
  destruct (String.eqb_spec q "") as [->|Hne].
  - split; [done |]. split; [by left | done].
  - split; [apply masked_query_length |].
    rewrite masked_query_fixed. split; [by right | by intros [? | ?]].
Qed.

Lemma query_string_changes_iff_witness :
  exists event' request' q',
    before_send_filter (query_event "next=/home&token=abc") ∅
    = Return (Keep event') /\
    event' !! "request" = Some (VDict request') /\
    request' !! "query_string" = Some (VStr q') /\
    q' <> "next=/home&token=abc".
Proof.
  destruct (query_string_changes_iff (query_event "next=/home&token=abc") ∅
              {[ "query_string" := VStr "next=/home&token=abc" ]}
              "next=/home&token=abc")
    as (event' & request' & q' & Hret & Hreq & Hq & _ & Hiff);
    [vm_compute; reflexivity | vm_compute; reflexivity
    | vm_compute; reflexivity |].
  exists event', request', q'.
  split; [exact Hret |]. split; [exact Hreq |]. split; [exact Hq |].
  intros Heq. apply Hiff in Heq as [Heq | [Heq _]]; discriminate Heq.
Defined.

(** X8. The filter raises instead of returning on an event whose [request]
    is no container ([None], a boolean or a number): [TypeError], from the
    test ["headers" in request]. On an event whose request is absent or of
    the expected shape and whose [extra] is not a mapping it raises
    [AttributeError], from [extra.keys()]. *)
Theorem filter_raises_on_malformed (event hint : gmap string value) (v : value) :
  (event !! "request" = Some v -> is_scalar v = true ->
   before_send_filter event hint = Raise TypeError) /\
  (absent_or request_shaped (event !! "request") = true ->
   event !! "extra" = Some v -> is_dict v = false ->
   before_send_filter event hint = Raise AttributeError).
Proof.
  split.
  - intros Hreq Hv. unfold before_send_filter, on_key. rewrite Hreq.
    by destruct v.
  - intros Hr Hx Hv. unfold before_send_filter.
    destruct (on_key_applied "request" remove_sensitive_request_data
                request_shaped event request_block_shaped Hr)
      as (e1 & -> & _ & F1).
    rewrite bind_Return. unfold on_key. rewrite F1, Hx by done.
    by destruct v.
Qed.

Lemma filter_raises_on_malformed_witness :
  before_send_filter {[ "request" := VNone ]} ∅ = Raise TypeError /\
  before_send_filter {[ "extra" := VStr "note" ]} ∅ = Raise AttributeError.
Proof.
  split.
  - apply (filter_raises_on_malformed {[ "request" := VNone ]} ∅ VNone);
      vm_compute; reflexivity.
  - apply (filter_raises_on_malformed {[ "extra" := VStr "note" ]} ∅ (VStr "note"));
      vm_compute; reflexivity.
Defined.

(** X9. [before_breadcrumb_filter] never edits a crumb: whatever it returns
    is the drop signal or the crumb it was given. And it returns, whatever
    the crumb holds, unless the category is ["httplib"]: only the URL test
    of that branch can raise. *)
Theorem before_breadcrumb_filter_never_edits (crumb hint : gmap string value) :
  (forall r, before_breadcrumb_filter crumb hint = Return r ->
             r = Drop \/ r = Keep crumb) /\
  (crumb !! "category" <> Some (VStr "httplib") ->
   exists r, before_breadcrumb_filter crumb hint = Return r).
Proof.
  unfold before_breadcrumb_filter. split.
  - intros r.
    destruct (eq_str (default VNone (crumb !! "category")) "query");
      [intros [= <-]; by left |].
    destruct (eq_str (default VNone (crumb !! "category")) "httplib");
      [|intros [= <-]; by right].
    intros (url & _ & H)%bind_inv. apply bind_inv in H as (tracked & _ & H).
    destruct tracked; injection H as <-; [by left | by right].
  - intros Hcat.
    destruct (eq_str (default VNone (crumb !! "category")) "query"); [eauto |].
    destruct (eq_str (default VNone (crumb !! "category")) "httplib") eqn:E;
      [|eauto].
    apply eq_str_true in E. destruct (crumb !! "category"); simpl in E;
      [congruence | discriminate E].
Qed.

Lemma before_breadcrumb_filter_never_edits_witness :
  before_breadcrumb_filter {[ "category" := VStr "ui.click"; "data" := VInt 7 ]} ∅
  = Return (Keep {[ "category" := VStr "ui.click"; "data" := VInt 7 ]}).
Proof.
  pose (crumb := ({[ "category" := VStr "ui.click"; "data" := VInt 7 ]}
                  : gmap string value)).
  destruct (before_breadcrumb_filter_never_edits crumb ∅) as [Hsame Hret].
  destruct Hret as [r Hr]; [vm_compute; discriminate |].
  destruct (Hsame r Hr) as [-> | ->]; [|exact Hr].
  exfalso. vm_compute in Hr. discriminate Hr.
Defined.

(** X10. A key of [extra] is masked whatever its letter casing: on an event
    of the expected shape whose [extra] holds a key in which a word occurs
    whose lower-case form is [password] or [secret], the filter returns the
    event with ["[REDACTED]"] at that key. *)
Theorem extra_key_matches_any_case (event hint extra : gmap string value)
    (pre word post : string) (v : value) :
  event_shaped event = true ->
  event !! "extra" = Some (VDict extra) ->
  extra !! (pre +:+ word +:+ post) = Some v ->
  lower word = "password" \/ lower word = "secret" ->
  exists event' extra',
    before_send_filter event hint = Return (Keep event') /\
    event' !! "extra" = Some (VDict extra') /\
    extra' !! (pre +:+ word +:+ post) = Some REDACTED.
Proof.
  intros Hshape Hextra Hkey Hword.
  destruct (before_send_filter_blocks event hint Hshape)
    as (event' & Hret & _ & Hx & _).
  unfold block_applied in Hx. rewrite Hextra in Hx.
  destruct Hx as (x & Hblock & Hlook).
  destruct (remove_sensitive_extra_lookup extra) as (extra' & Hblock' & Hkeys).
  rewrite Hblock' in Hblock. injection Hblock as <-.
  exists event', extra'. split; [done |]. split; [done |].
  rewrite Hkeys, Hkey.
  assert (sensitive_key (pre +:+ word +:+ post) = true) as ->; [|done].
  unfold sensitive_key. rewrite !lower_append. apply orb_true_iff.
  destruct Hword as [-> | ->]; [left | right];
    apply contains_occurs; by exists (lower pre), (lower post).
Qed.

Lemma extra_key_matches_any_case_witness :
  exists event' extra',
    before_send_filter full_event ∅ = Return (Keep event') /\
    event' !! "extra" = Some (VDict extra') /\
    extra' !! "DB_Password" = Some REDACTED.
Proof.
  apply (extra_key_matches_any_case full_event ∅
           (<[ "DB_Password" := VStr "hunter2" ]> {[ "attempt" := VInt 3 ]})
           "DB_" "Password" "" (VStr "hunter2"));
    try (vm_compute; reflexivity).
  left. vm_compute. reflexivity.
Defined.

End SentryFacts.

(** ** app_insights.py *)
Module AppInsightsFacts.
Import Py AppInsights.

#[local] Ltac run_io :=
  unfold mbind, io_bind, mret, io_ret, enter, read, write, vendor, raise,
    getenv, getenv_default, print, new_object, time_time; simpl.

(** *** The disabled state *)

Lemma disabled_globals (w : world) :
  disabled w = true ->
  _tracer w = None /\ _metrics_exporter w = None /\ _logger w = None.
Proof.
  unfold disabled.
  destruct (_tracer w), (_metrics_exporter w), (_logger w); by try discriminate.
Qed.

(** In the disabled state a tracking call does nothing but return: the
    world it leaves differs by the ghost record of the call only. *)
Lemma perform_disabled (w : world) (c : tracking_call) :
  disabled w = true ->
  perform c w = (Returns tt, with_calls (calls w ++ [c]) w).
Proof.
  intros (Ht & Hm & Hl)%disabled_globals.
  destruct c;
    unfold perform, track_event, track_metric, track_exception, track_trace,
      track_request, track_dependency, flush;
    run_io; unfold with_calls; simpl; rewrite ?Ht, ?Hm, ?Hl; reflexivity.
Qed.

(** Without a credential, initialisation prints one line and returns. *)
Lemma init_without_credential (sdk : setup_step -> option exception) (w : world) :
  no_credential w = true ->
  init_app_insights sdk w =
  (Returns tt,
   with_stdout
     (stdout w ++
      ["[App Insights] Connection string not configured, monitoring disabled"]) w).
Proof.
  unfold no_credential, init_app_insights. run_io.
  destruct (environ w !! "APPLICATIONINSIGHTS_CONNECTION_STRING") as [[|]|];
    try discriminate; reflexivity.
Qed.

(** *** Initialisation with a credential *)

Lemma new_handler_is_not_attached (w : world) (n : nat) :
  handlers_allocated w -> next_id w <= n ->
  existsb (fun h' => Nat.eqb (handler_id h') n) (logger_handlers w) = false.
Proof.
  unfold handlers_allocated. intros Hall Hn.
  induction Hall as [|h hs Hh _ IH]; [done |]. simpl. rewrite IH, orb_false_r.
  apply Nat.eqb_neq. lia.
Qed.

(** With a credential and an SDK whose setup returns, initialisation runs
    the whole setup, whatever the state it starts from. *)
Lemma init_with_credential (sdk : setup_step -> option exception) (w : world)
    (conn : string) :
  environ w !! "APPLICATIONINSIGHTS_CONNECTION_STRING" = Some conn ->
  conn <> "" ->
  (forall step, sdk step = None) ->
  handlers_allocated w ->
  let environment :=
    default (default "development" (environ w !! "NODE_ENV"))
            (environ w !! "APPINSIGHTS_ENVIRONMENT") in
  let rate :=
    if String.eqb environment "production"
    then 0x1.999999999999ap-4%float else 1%float in
  init_app_insights sdk w =
  (Returns tt,
   mk_world (environ w)
     (Some (mk_Tracer (next_id w) conn rate))
     (Some (mk_MetricsExporter (S (next_id w)) conn))
     (Some module_logger)
     (logger_handlers w ++ [mk_AzureLogHandler (S (S (next_id w))) conn])
     (Some INFO)
     (S (S (S (next_id w)))) (clock w) (ticks w)
     (stdout w ++ ["[App Insights] Initialized successfully (environment: "
                   +:+ environment +:+ ")"])
     (vendor_calls w) (calls w)).
Proof.
  intros Henv Hconn Hsdk Hall environment rate.
  unfold init_app_insights. run_io.
  rewrite Henv. destruct conn as [|c conn]; [done |].
  unfold try_except, setup. run_io. rewrite !Hsdk. run_io.
  unfold addHandler. run_io.
  rewrite new_handler_is_not_attached by (done || lia).
  reflexivity.
Qed.

(** *** The claims *)

(** C7. In the disabled state (no global set): initialisation that finds no
    connection string returns and leaves the adapter disabled; and every
    tracking call ([track_event], [track_metric], [track_exception],
    [track_trace], [track_request], [track_dependency], [flush]) returns
    without raising, makes no call on the vendor client and leaves the
    adapter disabled. *)
Theorem disabled_adapter_is_inert (sdk : setup_step -> option exception)
    (w : world) (c : tracking_call) :
  disabled w = true ->
  (no_credential w = true ->
   exists w', init_app_insights sdk w = (Returns tt, w') /\
              disabled w' = true /\ vendor_calls w' = vendor_calls w) /\
  exists w', perform c w = (Returns tt, w') /\
             vendor_calls w' = vendor_calls w /\
             stdout w' = stdout w /\
             adapter_state w' = adapter_state w /\
             disabled w' = true.
Proof.
  intros Hd. split.
  - intros Hn. rewrite (init_without_credential sdk w Hn).
    eexists. split; [reflexivity |]. by split.
  - rewrite (perform_disabled w c Hd).
    eexists. split; [reflexivity |]. by repeat split.
Qed.

Lemma disabled_adapter_is_inert_witness :
  let w := (init_app_insights sdk_ok (at_import ∅ test_clock)).2 in
  disabled w = true /\
  (exists w', perform (TrackEvent "signup" None None) w = (Returns tt, w') /\
              vendor_calls w' = []) /\
  (exists w', perform Flush w = (Returns tt, w') /\ vendor_calls w' = []).
Proof.
  intros w. split; [reflexivity |]. split.
  - destruct (disabled_adapter_is_inert sdk_ok w (TrackEvent "signup" None None))
      as [_ [w' (Hret & Hv & _)]]; [reflexivity |].
    exists w'. split; [exact Hret | exact Hv].
  - destruct (disabled_adapter_is_inert sdk_ok w Flush)
      as [_ [w' (Hret & Hv & _)]]; [reflexivity |].
    exists w'. split; [exact Hret | exact Hv].
Defined.

(** C8 (the claim fails on the code). A request whose handler is cancelled
    ([asyncio.CancelledError], whose class derives from [BaseException]
    only) fires neither emission path: [except Exception] does not catch
    the object, and the middleware has made no tracking call when it
    leaves. *)
Lemma cancelled_request_fires_no_path :
  ~ fires_one_path get_users (fun _ => raise cancelled) (at_import ∅ test_clock).
Proof.
  unfold fires_one_path. intros (c & H & _). vm_compute in H. discriminate H.
Qed.

(** C8, amended. Let the middleware run a request whose handler [call_next]
    is any computation, started after the first clock reading. If the
    handler returns a response, the middleware returns that response and has
    made, after the handler, exactly one tracking call: [track_request] with
    the request's method, path and URL, the elapsed time, the status code
    and [success] equal to [status_code < 400]. If the handler raises an
    error (an object of class [Exception]), the middleware raises that same
    object and has made, after the handler, exactly one tracking call:
    [track_exception] with that error. If the handler raises an object that
    is not of class [Exception], neither path fires: the middleware raises
    that object and leaves the process as the handler left it. *)
Theorem middleware_emits_once (request : Request)
    (call_next : Request -> io Response) (w : world) :
  let started := with_ticks (S (ticks w)) w in
  (forall response w1,
     call_next request started = (Returns response, w1) ->
     exists w2,
       app_insights_middleware request call_next w = (Returns response, w2) /\
       calls w2 =
       (calls w1 ++
        [TrackRequest (method request +:+ " " +:+ url_path request)
           (url_str request)
           (elapsed_ms (clock w (ticks w)) (clock w1 (ticks w1)))
           (status_code response)
           (status_code response <? 400)%Z
           (Some (request_properties request))])%list) /\
  (forall e w1,
     call_next request started = (Raises e, w1) ->
     exc_is_Exception e = true ->
     exists w2,
       app_insights_middleware request call_next w = (Raises e, w2) /\
       calls w2 =
       (calls w1 ++
        [TrackException e "ERROR" (Some (request_properties request))])%list) /\
  (forall e w1,
     call_next request started = (Raises e, w1) ->
     exc_is_Exception e = false ->
     app_insights_middleware request call_next w = (Raises e, w1)).
Proof.
  intros started. split; [|split].
  - intros response w1 H.
    unfold app_insights_middleware, try_except. run_io.
    fold started. rewrite H.
    unfold track_request. run_io.
    destruct (_logger w1); eexists; split; reflexivity.
  - intros e w1 H He.
    unfold app_insights_middleware, try_except. run_io.
    fold started. rewrite H, He.
    unfold track_exception. run_io.
    destruct (_logger w1); eexists; split; reflexivity.
  - intros e w1 H He.
    unfold app_insights_middleware, try_except. run_io.
    fold started. by rewrite H, He.
Qed.

Lemma middleware_emits_once_witness :
  let w := at_import ∅ test_clock in
  (exists w2,
     app_insights_middleware get_users (fun _ => raise boom) w
     = (Raises boom, w2) /\
     calls w2 =
     [TrackException boom "ERROR" (Some (request_properties get_users))]) /\
  (exists w2,
     app_insights_middleware get_users
       (fun _ => mret (mk_Response 404 "not found")) w
     = (Returns (mk_Response 404 "not found"), w2) /\
     calls w2 =
     [TrackRequest "GET /api/users" "http://testserver/api/users" 250%float
        404 false (Some (request_properties get_users))]) /\
  app_insights_middleware get_users (fun _ => raise cancelled) w
  = (Raises cancelled, with_ticks 1 w).
Proof.
  intros w. split; [|split].
  - destruct (middleware_emits_once get_users (fun _ => raise boom) w)
      as (_ & Herr & _).
    apply (Herr boom (with_ticks 1 w)); reflexivity.
  - destruct (middleware_emits_once get_users
                (fun _ => mret (mk_Response 404 "not found")) w) as (Hok & _).
    apply (Hok (mk_Response 404 "not found") (with_ticks 1 w)). reflexivity.
  - destruct (middleware_emits_once get_users (fun _ => raise cancelled) w)
      as (_ & _ & Hsig).
    apply (Hsig cancelled (with_ticks 1 w)); reflexivity.
Defined.

(** X17. An object that is not an error (its class derives from
    [BaseException] only: a cancellation, an exit) passes through the
    middleware, which makes no tracking call and leaves the process as the
    handler left it. *)
Lemma middleware_passes_signals (request : Request)
    (call_next : Request -> io Response) (w w1 : world) (e : exception) :
  call_next request (with_ticks (S (ticks w)) w) = (Raises e, w1) ->
  exc_is_Exception e = false ->
  app_insights_middleware request call_next w = (Raises e, w1).
Proof.
  intros H He. unfold app_insights_middleware, try_except. run_io.
  by rewrite H, He.
Qed.

(** C9 (the claim fails on the code). Starting from the module as imported,
    with a connection string in the environment and an SDK whose setup
    returns, the second call of [init_app_insights] is not rejected and does
    not leave the adapter state as the first call left it: the logger
    carries a second handler, and the tracer and the metrics exporter are
    new objects. *)
Lemma second_init_is_not_guarded :
  ~ guards_double_initialization sdk_ok (at_import configured_env test_clock).
Proof.
  unfold guards_double_initialization. intros [H | [e H]].
  - apply (f_equal (fun s => length (s.1.2))) in H. vm_compute in H.
    discriminate H.
  - vm_compute in H. discriminate H.
Qed.

(** C9, amended. [init_app_insights] has no guard against a repeated call.
    Where no connection string is configured, a call returns and leaves the
    adapter state and the environment as they were. Where one is configured
    and the setup calls of the SDK return, a call, in whatever state it is
    made (so a second call too), returns, sets the tracer and the metrics
    exporter to newly built objects, and attaches one more handler to the
    logger of the module; the environment is unchanged and the identities
    in use are still below the allocator, so the same holds for the next
    call. *)
Theorem init_app_insights_reruns_setup (sdk : setup_step -> option exception)
    (w : world) :
  (no_credential w = true ->
   exists w', init_app_insights sdk w = (Returns tt, w') /\
              adapter_state w' = adapter_state w /\
              environ w' = environ w) /\
  (no_credential w = false ->
   (forall step, sdk step = None) ->
   handlers_allocated w ->
   exists w' conn rate,
     environ w !! "APPLICATIONINSIGHTS_CONNECTION_STRING" = Some conn /\
     init_app_insights sdk w = (Returns tt, w') /\
     _tracer w' = Some (mk_Tracer (next_id w) conn rate) /\
     _metrics_exporter w' = Some (mk_MetricsExporter (S (next_id w)) conn) /\
     _logger w' = Some module_logger /\
     logger_handlers w' =
     (logger_handlers w ++ [mk_AzureLogHandler (S (S (next_id w))) conn])%list /\
     environ w' = environ w /\
     handlers_allocated w').
Proof.
  split.
  - intros Hn. rewrite (init_without_credential sdk w Hn).
    eexists. split; [reflexivity |]. by split.
  - intros Hn Hsdk Hall. unfold no_credential in Hn.
    destruct (environ w !! "APPLICATIONINSIGHTS_CONNECTION_STRING")
      as [conn|] eqn:Henv; [|discriminate Hn].
    assert (conn <> "") as Hconn by (intros ->; discriminate Hn).
    rewrite (init_with_credential sdk w conn Henv Hconn Hsdk Hall).
    eexists _, conn, _. split; [reflexivity |]. split; [reflexivity |].
    repeat split.
    unfold handlers_allocated in *. simpl. apply Forall_app. split.
    + eapply Forall_impl; [exact Hall |]. simpl. intros h Hh. lia.
    + apply Forall_singleton. simpl. lia.
Qed.

Lemma init_app_insights_reruns_setup_witness :
  let w1 := (init_app_insights sdk_ok (at_import configured_env test_clock)).2 in
  exists w2,
    init_app_insights sdk_ok w1 = (Returns tt, w2) /\
    logger_handlers w1 = [mk_AzureLogHandler 2 "InstrumentationKey=00000000"] /\
    logger_handlers w2 = [mk_AzureLogHandler 2 "InstrumentationKey=00000000";
                          mk_AzureLogHandler 5 "InstrumentationKey=00000000"].
Proof.
  intros w1.
  destruct (init_app_insights_reruns_setup sdk_ok w1) as [_ H].
  destruct H as (w2 & conn & rate & Hconn & Hret & _ & _ & _ & Hh & _).
  - reflexivity.
  - intros step. reflexivity.
  - apply Forall_singleton. vm_compute. lia.
  - exists w2. split; [exact Hret |]. split; [reflexivity |].
    vm_compute in Hconn. injection Hconn as <-. rewrite Hh. reflexivity.
Defined.

(** C10. With the logger set, [track_exception] called with any severity
    other than ["CRITICAL"] and ["WARNING"] returns after exactly one call on
    the vendor client, at level ERROR, with the message and the exception:
    ["INFO"], ["DEBUG"] and unknown strings all log as the default ["ERROR"]
    does. *)
Theorem track_exception_defaults_to_error (w : world) (error : exception)
    (severity : string) (properties : option (gmap string value)) :
  _logger w <> None ->
  severity <> "CRITICAL" ->
  severity <> "WARNING" ->
  exists w' extra,
    track_exception error severity properties w = (Returns tt, w') /\
    vendor_calls w' =
    (vendor_calls w ++ [Log ERROR (exc_str error) (Some error) extra])%list.
Proof.
  intros Hl Hc Hw.
  apply String.eqb_neq in Hc, Hw.
  unfold track_exception. run_io.
  destruct (_logger w); [|done].
  rewrite Hc, Hw. run_io. eexists _, _. split; reflexivity.
Qed.

Lemma track_exception_defaults_to_error_witness :
  let w := (init_app_insights sdk_ok (at_import configured_env test_clock)).2 in
  exists w' extra,
    track_exception boom "INFO" None w = (Returns tt, w') /\
    vendor_calls w' = [Log ERROR "boom" (Some boom) extra].
Proof.
  intros w.
  apply (track_exception_defaults_to_error w boom "INFO" None);
    vm_compute; discriminate.
Defined.

(** *** Further properties of the adapter *)

Lemma for_each_vendor {A : Type} (f : A -> vendor_call) (xs : list A) (w : world) :
  for_each xs (fun x => vendor (f x)) w
  = (Returns tt, with_vendor_calls (vendor_calls w ++ map f xs) w).
Proof.
  revert w. induction xs as [|x xs IH]; intros w.
  - simpl. rewrite app_nil_r. destruct w; reflexivity.
  - cbn [for_each map]. run_io. rewrite IH. f_equal.
    unfold with_vendor_calls. simpl. by rewrite <- app_assoc.
Qed.

Lemma rebound_value_is_last (items : list (string * value)) (v : value) :
  fold_left (fun _ kv => snd kv) items v = List.last (map snd items) v.
Proof.
  revert v. induction items as [|kv items IH]; intros v; [done |].
  destruct items as [|kv' items]; [done |].
  change (List.last (map snd (kv :: kv' :: items)) v)
    with (List.last (map snd (kv' :: items)) v).
  rewrite <- IH. reflexivity.
Qed.

Lemma last_accepted_is_str (items : list (string * value)) (v : value) :
  forallb accepted_tag items = true -> items <> [] ->
  exists s, List.last (map snd items) v = VStr s.
Proof.
  induction items as [|kv items IH]; [done |]. intros Hall _.
  cbn [forallb] in Hall. apply andb_prop in Hall as [Hkv Hall].
  destruct items as [|kv' items].
  - destruct kv as [key [| | | |s| |]]; try discriminate Hkv. by exists s.
  - change (List.last (map snd (kv :: kv' :: items)) v)
      with (List.last (map snd (kv' :: items)) v).
    by apply IH.
Qed.

(** X4. With the metrics exporter set and properties whose tags the vendor
    accepts, [track_metric] registers the view, inserts each property as a
    tag, in order, and hands one value to [measure_float_put]: the value of
    the last property when there is a property (the loop of line 161 binds
    the name [value] again), the [value] argument only when there is none.
    With a property, that value is a string: the call raises [TypeError],
    [track_metric] raises it, and nothing is recorded. Without one,
    [track_metric] returns after recording when [value] is a number, and
    raises [TypeError] without recording when it is not. *)
Theorem track_metric_measurement (w : world) (name : string) (v : value)
    (properties : option (list (string * value))) :
  _metrics_exporter w <> None ->
  forallb accepted_tag (default [] properties) = true ->
  let items := default [] properties in
  let put := List.last (map snd items) v in
  exists w',
    track_metric name v properties w =
    (if is_number put then Returns tt else Raises (not_comparable put), w') /\
    vendor_calls w' =
    (vendor_calls w
     ++ RegisterView name
     :: map (fun kv => TagInsert (fst kv) (snd kv)) items
     ++ MeasureFloatPut name put
     :: (if is_number put then [RecordMeasurements] else []))%list /\
    (items = [] -> put = v) /\
    (items <> [] -> exists s, put = VStr s).
Proof.
  intros He Hall items put. unfold track_metric. run_io.
  destruct (_metrics_exporter w); [|done]. run_io.
  rewrite (for_each_vendor (fun kv => TagInsert (fst kv) (snd kv))).
  rewrite rebound_value_is_last. fold items. fold put.
  unfold measure_float_put. run_io.
  assert (Hlast : (items = [] -> put = v) /\ (items <> [] -> exists s, put = VStr s)).
  { split.
    - unfold put. by intros ->.
    - intros Hne. by apply last_accepted_is_str. }
  destruct (is_number put); run_io.
  - eexists. split; [reflexivity |]. split; [|exact Hlast]. simpl.
    rewrite <- !app_assoc. reflexivity.
  - eexists. split; [reflexivity |]. split; [|exact Hlast]. simpl.
    rewrite <- !app_assoc. reflexivity.
Qed.

Lemma track_metric_measurement_witness :
  let w := (init_app_insights sdk_ok (at_import configured_env test_clock)).2 in
  (exists w',
     track_metric "latency" (VFloat 12.5) (Some [("region", VStr "eu")]) w
     = (Raises (mk_exception "TypeError"
                  "'<' not supported between instances of 'str' and 'int'" true),
        w') /\
     vendor_calls w' =
     [RegisterView "latency"; TagInsert "region" (VStr "eu");
      MeasureFloatPut "latency" (VStr "eu")]) /\
  (exists w',
     track_metric "latency" (VFloat 12.5) None w = (Returns tt, w') /\
     vendor_calls w' =
     [RegisterView "latency"; MeasureFloatPut "latency" (VFloat 12.5);
      RecordMeasurements]).
Proof.
  intros w. split.
  - destruct (track_metric_measurement w "latency" (VFloat 12.5)
                (Some [("region", VStr "eu")]))
      as (w' & Hrun & Hcalls & _); [vm_compute; discriminate | reflexivity |].
    exists w'. split; [exact Hrun | exact Hcalls].
  - destruct (track_metric_measurement w "latency" (VFloat 12.5) None)
      as (w' & Hrun & Hcalls & _); [vm_compute; discriminate | reflexivity |].
    exists w'. split; [exact Hrun | exact Hcalls].
Defined.




(** *** Initialisation when the SDK fails *)

(** X11. [init_app_insights] returns, whatever the state it is called in,
    when everything the SDK raises is an [Exception]: the failure of a setup
    call is caught. It prints exactly one line: that no connection string is
    configured, that it initialised, or that it failed, with the text of
    what a setup call raised. It calls no function of the tracking
    interface, leaves the environment as it was, and unsets no global. *)
Theorem init_app_insights_returns (sdk : setup_step -> option exception)
    (w : world) :
  (forall step e, sdk step = Some e -> exc_is_Exception e = true) ->
  exists w' line,
    init_app_insights sdk w = (Returns tt, w') /\
    stdout w' = (stdout w ++ [line])%list /\
    (line = "[App Insights] Connection string not configured, monitoring disabled" \/
     (exists environment,
        line = "[App Insights] Initialized successfully (environment: "
               +:+ environment +:+ ")") \/
     (exists step e,
        sdk step = Some e /\
        line = "[App Insights] Failed to initialize: " +:+ exc_str e)) /\
    environ w' = environ w /\
    calls w' = calls w /\
    (_tracer w <> None -> _tracer w' <> None) /\
    (_metrics_exporter w <> None -> _metrics_exporter w' <> None) /\
    (_logger w <> None -> _logger w' <> None).
Proof.
  intros Hsdk.
  destruct (no_credential w) eqn:Hn.
  { rewrite (init_without_credential sdk w Hn). eexists _, _.
    split; [reflexivity |]. split; [reflexivity |]. split; [by left |].
    by repeat split. }
  unfold no_credential in Hn. unfold init_app_insights. run_io.
  destruct (environ w !! "APPLICATIONINSIGHTS_CONNECTION_STRING")
    as [[|c conn]|]; try discriminate Hn.
  unfold try_except, setup, addHandler. run_io.
  repeat match goal with
  | |- context [sdk ?step] =>
      let E := fresh "E" in
      destruct (sdk step) as [?e|] eqn:E;
      [rewrite (Hsdk _ _ E); eexists _, _; split; [reflexivity |];
       split; [reflexivity |];
       split; [right; right; eexists _, _; split; [exact E | reflexivity] |];
       by repeat split | run_io]
  end.
  match goal with
  | |- context [if ?b then _ else _] => destruct b
  end; eexists _, _; (split; [reflexivity |]); (split; [reflexivity |]);
    (split; [right; left; eexists; reflexivity |]); by repeat split.
Qed.

Lemma init_app_insights_returns_witness :
  exists w',
    init_app_insights sdk_without_handler (at_import configured_env test_clock)
    = (Returns tt, w') /\
    stdout w' = ["[App Insights] Failed to initialize: Invalid instrumentation key."].
Proof.
  destruct (init_app_insights_returns sdk_without_handler
              (at_import configured_env test_clock))
    as (w' & line & Hret & Hout & _).
  - intros step e. destruct step; try discriminate. by intros [= <-].
  - exists w'. split; [exact Hret |].
    replace w' with (init_app_insights sdk_without_handler
                       (at_import configured_env test_clock)).2
      by (by rewrite Hret).
    reflexivity.
Defined.

(** X12. When the SDK refuses to build the log handler and returns from the
    setup calls before it, [init_app_insights] with a connection string
    returns, having printed the failure, with the three globals set and no
    handler attached: the adapter is not disabled, and a tracking call goes
    on to call the logger. *)
Theorem init_without_handler_is_enabled (sdk : setup_step -> option exception)
    (w : world) (conn : string) (e : exception) :
  environ w !! "APPLICATIONINSIGHTS_CONNECTION_STRING" = Some conn ->
  conn <> "" ->
  (forall step, (forall c, step <> new_AzureLogHandler c) -> sdk step = None) ->
  sdk (new_AzureLogHandler conn) = Some e ->
  exc_is_Exception e = true ->
  exists w',
    init_app_insights sdk w = (Returns tt, w') /\
    stdout w' = (stdout w ++ ["[App Insights] Failed to initialize: " +:+ exc_str e])%list /\
    _tracer w' <> None /\
    _metrics_exporter w' <> None /\
    _logger w' = Some module_logger /\
    logger_handlers w' = logger_handlers w /\
    disabled w' = false /\
    forall name,
      vendor_calls (track_event name None None w').2 =
      (vendor_calls w ++
       [Log INFO ("Event: " +:+ name) None
          {[ "custom_dimensions" := VDict {[ "event_name" := VStr name ]} ]}])%list.
Proof.
  intros Henv Hconn Hother Hfail He.
  unfold init_app_insights. run_io.
  rewrite Henv. destruct conn as [|c conn]; [done |].
  unfold try_except, setup. run_io.
  rewrite !Hother by (intros; discriminate). run_io.
  rewrite Hfail. run_io. rewrite He.
  eexists. split; [reflexivity |]. simpl. by repeat split.
Qed.

Lemma init_without_handler_is_enabled_witness :
  exists w',
    init_app_insights sdk_without_handler (at_import configured_env test_clock)
    = (Returns tt, w') /\
    disabled w' = false /\
    logger_handlers w' = [] /\
    stdout w' =
    ["[App Insights] Failed to initialize: Invalid instrumentation key."].
Proof.
  destruct (init_without_handler_is_enabled sdk_without_handler
              (at_import configured_env test_clock)
              "InstrumentationKey=00000000"
              (mk_exception "ValueError" "Invalid instrumentation key." true))
    as (w' & Hret & Hout & _ & _ & _ & Hh & Hd & _);
    try reflexivity; try discriminate.
  - intros step Hstep. destruct step; try reflexivity. by destruct (Hstep connection_string).
  - exists w'. split; [exact Hret |]. split; [exact Hd |].
    split; [exact Hh | exact Hout].
Defined.

(** *** The tracking functions with the logger set *)

(** X13. With the logger set, [track_trace] returns after exactly one call
    on the logger, with the message, at the level its severity names:
    ["DEBUG"], ["WARNING"], ["ERROR"] and ["CRITICAL"] at theirs, and every
    other string (["INFO"], a lower-case ["debug"], anything else) at
    INFO. *)
Theorem track_trace_level (w : world) (message severity : string)
    (properties : option (gmap string value)) :
  _logger w <> None ->
  exists w' lvl,
    track_trace message severity properties w = (Returns tt, w') /\
    vendor_calls w' =
    (vendor_calls w ++
     [Log lvl message None {[ "custom_dimensions" := VDict (or_empty properties) ]}])%list /\
    (severity = "DEBUG" -> lvl = DEBUG) /\
    (severity = "WARNING" -> lvl = WARNING) /\
    (severity = "ERROR" -> lvl = ERROR) /\
    (severity = "CRITICAL" -> lvl = CRITICAL) /\
    (severity <> "DEBUG" -> severity <> "WARNING" -> severity <> "ERROR" ->
     severity <> "CRITICAL" -> lvl = INFO).
Proof.
  intros Hl. unfold track_trace. run_io. destruct (_logger w); [|done].
  destruct (String.eqb_spec severity "DEBUG") as [->|H1].
  { eexists _, DEBUG. split; [reflexivity |]. by repeat split. }
  destruct (String.eqb_spec severity "WARNING") as [->|H2].
  { eexists _, WARNING. split; [reflexivity |]. by repeat split. }
  destruct (String.eqb_spec severity "ERROR") as [->|H3].
  { eexists _, ERROR. split; [reflexivity |]. by repeat split. }
  destruct (String.eqb_spec severity "CRITICAL") as [->|H4].
  { eexists _, CRITICAL. split; [reflexivity |]. by repeat split. }
  eexists _, INFO. split; [reflexivity |]. by repeat split.
Qed.

Lemma track_trace_level_witness :
  let w := (init_app_insights sdk_ok (at_import configured_env test_clock)).2 in
  exists w',
    track_trace "cache miss" "debug" None w = (Returns tt, w') /\
    vendor_calls w' =
    [Log INFO "cache miss" None {[ "custom_dimensions" := VDict ∅ ]}].
Proof.
  intros w.
  destruct (track_trace_level w "cache miss" "debug" None)
    as (w' & lvl & Hret & Hcalls & _ & _ & _ & _ & Hinfo);
    [vm_compute; discriminate |].
  exists w'. split; [exact Hret |].
  rewrite Hcalls, Hinfo by discriminate. reflexivity.
Defined.

(** X14. With the logger set, [track_event] returns after exactly one call
    on the logger, at INFO, with the message ["Event: <name>"] and custom
    dimensions in which a measurement wins over a property of the same
    name, and either wins over the entry [event_name] the function puts
    first. *)
Theorem track_event_dimensions (w : world) (name : string)
    (properties measurements : option (gmap string value)) :
  _logger w <> None ->
  exists w' dimensions,
    track_event name properties measurements w = (Returns tt, w') /\
    vendor_calls w' =
    (vendor_calls w ++
     [Log INFO ("Event: " +:+ name) None
        {[ "custom_dimensions" := VDict dimensions ]}])%list /\
    forall key,
      dimensions !! key =
      match or_empty measurements !! key with
      | Some x => Some x
      | None =>
          match or_empty properties !! key with
          | Some x => Some x
          | None => if bool_decide (key = "event_name") then Some (VStr name) else None
          end
      end.
Proof.
  intros Hl. unfold track_event. run_io. destruct (_logger w); [|done].
  eexists _, _. split; [reflexivity |]. split; [reflexivity |].
  intros key. unfold unpack_over. rewrite !lookup_union.
  assert (({[ "event_name" := VStr name ]} : gmap string value) !! key
          = if bool_decide (key = "event_name") then Some (VStr name) else None)
    as ->.
  { destruct (decide (key = "event_name")) as [->|Hne].
    - by rewrite lookup_singleton_eq, (bool_decide_eq_true_2 _ eq_refl).
    - by rewrite lookup_singleton_ne, (bool_decide_eq_false_2 _ Hne). }
  by destruct (or_empty measurements !! key), (or_empty properties !! key),
       (bool_decide (key = "event_name")).
Qed.

Lemma track_event_dimensions_witness :
  let w := (init_app_insights sdk_ok (at_import configured_env test_clock)).2 in
  exists w' dimensions,
    track_event "signup" (Some {[ "event_name" := VStr "override" ]}) None w
    = (Returns tt, w') /\
    vendor_calls w' =
    [Log INFO "Event: signup" None {[ "custom_dimensions" := VDict dimensions ]}] /\
    dimensions !! "event_name" = Some (VStr "override").
Proof.
  intros w.
  destruct (track_event_dimensions w "signup"
              (Some {[ "event_name" := VStr "override" ]}) None)
    as (w' & dimensions & Hret & Hcalls & Hdim); [vm_compute; discriminate |].
  exists w', dimensions. split; [exact Hret |]. split; [exact Hcalls |].
  rewrite Hdim. reflexivity.
Defined.

(** *** The middleware and the application *)

(** X15. The middleware is transparent to the application: for any handler
    it returns the response the handler returned, or raises the object the
    handler raised, whatever the state of the adapter. And where the
    handler leaves the logger unset, the middleware adds no call on the
    vendor client, prints nothing and leaves the adapter state as the
    handler left it. *)
Theorem middleware_is_transparent (request : Request)
    (call_next : Request -> io Response) (w : world) :
  let handled := call_next request (with_ticks (S (ticks w)) w) in
  let served := app_insights_middleware request call_next w in
  served.1 = handled.1 /\
  (_logger handled.2 = None ->
   vendor_calls served.2 = vendor_calls handled.2 /\
   stdout served.2 = stdout handled.2 /\
   adapter_state served.2 = adapter_state handled.2).
Proof.
  intros handled served. subst handled served.
  unfold app_insights_middleware, try_except. run_io.
  destruct (call_next request (with_ticks (S (ticks w)) w))
    as [[response|e] w1] eqn:H.
  - unfold track_request. run_io. destruct (_logger w1) eqn:Hl; simpl.
    + by split.
    + by split.
  - simpl. destruct (exc_is_Exception e); [|by split].
    unfold track_exception. run_io. destruct (_logger w1) eqn:Hl; simpl.
    + by split.
    + by split.
Qed.

Lemma middleware_is_transparent_witness :
  let w := at_import ∅ test_clock in
  let handler := fun _ : Request => mret (mk_Response 500 "oops") : io Response in
  (app_insights_middleware get_users handler w).1
  = Returns (mk_Response 500 "oops") /\
  vendor_calls (app_insights_middleware get_users handler w).2 = [].
Proof.
  intros w handler.
  destruct (middleware_is_transparent get_users handler w) as [Hout Hquiet].
  split; [exact Hout |]. destruct Hquiet as [Hv _]; [reflexivity | exact Hv].
Defined.

(** X16. With the logger set when the handler is done, the middleware makes
    exactly one call on the logger. After a response: at INFO, with the
    message ["Request: <method> <path>"] and custom dimensions that hold the
    URL, the duration, the status code, [success] as [status_code < 400],
    and the method and the path. After an error: at ERROR, with the text of
    the error, the error itself as [exc_info], and custom dimensions that
    hold its type, its text, and the method and the path. *)
Theorem middleware_logs_once (request : Request)
    (call_next : Request -> io Response) (w : world) :
  let started := with_ticks (S (ticks w)) w in
  (forall response w1,
     call_next request started = (Returns response, w1) ->
     _logger w1 <> None ->
     exists w2 dimensions,
       app_insights_middleware request call_next w = (Returns response, w2) /\
       vendor_calls w2 =
       (vendor_calls w1 ++
        [Log INFO ("Request: " +:+ method request +:+ " " +:+ url_path request)
           None {[ "custom_dimensions" := VDict dimensions ]}])%list /\
       dimensions !! "request_name"
       = Some (VStr (method request +:+ " " +:+ url_path request)) /\
       dimensions !! "url" = Some (VStr (url_str request)) /\
       dimensions !! "duration_ms"
       = Some (VFloat (elapsed_ms (clock w (ticks w)) (clock w1 (ticks w1)))) /\
       dimensions !! "response_code" = Some (VInt (status_code response)) /\
       dimensions !! "success" = Some (VBool (status_code response <? 400)%Z) /\
       dimensions !! "method" = Some (VStr (method request)) /\
       dimensions !! "path" = Some (VStr (url_path request))) /\
  (forall e w1,
     call_next request started = (Raises e, w1) ->
     exc_is_Exception e = true ->
     _logger w1 <> None ->
     exists w2 dimensions,
       app_insights_middleware request call_next w = (Raises e, w2) /\
       vendor_calls w2 =
       (vendor_calls w1 ++
        [Log ERROR (exc_str e) (Some e)
           {[ "custom_dimensions" := VDict dimensions ]}])%list /\
       dimensions !! "exception_type" = Some (VStr (exc_type e)) /\
       dimensions !! "exception_message" = Some (VStr (exc_str e)) /\
       dimensions !! "method" = Some (VStr (method request)) /\
       dimensions !! "path" = Some (VStr (url_path request))).
Proof.
  intros started. split.
  - intros response w1 H Hl.
    unfold app_insights_middleware, try_except. run_io.
    fold started. rewrite H.
    unfold track_request. run_io. destruct (_logger w1); [|done].
    eexists _, _. split; [reflexivity |]. split; [reflexivity |].
    by repeat split.
  - intros e w1 H He Hl.
    unfold app_insights_middleware, try_except. run_io.
    fold started. rewrite H, He.
    unfold track_exception. run_io. destruct (_logger w1); [|done].
    eexists _, _. split; [reflexivity |]. split; [reflexivity |].
    by repeat split.
Qed.

Lemma middleware_logs_once_witness :
  let w := (init_app_insights sdk_ok (at_import configured_env test_clock)).2 in
  exists w2 dimensions,
    app_insights_middleware get_users (fun _ => raise boom) w = (Raises boom, w2) /\
    vendor_calls w2 =
    [Log ERROR "boom" (Some boom) {[ "custom_dimensions" := VDict dimensions ]}] /\
    dimensions !! "exception_type" = Some (VStr "ValueError").
Proof.
  intros w.
  destruct (middleware_logs_once get_users (fun _ => raise boom) w) as [_ Herr].
  destruct (Herr boom (with_ticks 1 w))
    as (w2 & dimensions & Hret & Hcalls & Htype & _);
    [reflexivity | reflexivity | vm_compute; discriminate |].
  exists w2, dimensions. split; [exact Hret |]. split; [exact Hcalls | exact Htype].
Defined.

Lemma middleware_passes_signals_witness :
  let w := (init_app_insights sdk_ok (at_import configured_env test_clock)).2 in
  app_insights_middleware get_users (fun _ => raise cancelled) w
  = (Raises cancelled, with_ticks 1 w) /\
  calls (with_ticks 1 w) = [] /\ vendor_calls (with_ticks 1 w) = [].
Proof.
  intros w. split; [|split; reflexivity].
  apply (middleware_passes_signals get_users (fun _ => raise cancelled) w);
    reflexivity.
Defined.

(** *** Initialisation, repeated *)

(** X18. With a connection string and an SDK whose setup returns, [n] calls
    of [init_app_insights] in a row return and leave [n] more handlers on
    the logger of the module than there were, all of different identities
    when those there were: each call made at startup adds one more export
    of every log record. *)
Theorem init_repeatedly_attaches (sdk : setup_step -> option exception)
    (n : nat) (w : world) :
  no_credential w = false ->
  (forall step, sdk step = None) ->
  handlers_allocated w ->
  NoDup (handler_id <$> logger_handlers w) ->
  exists w',
    init_repeatedly sdk n w = (Returns tt, w') /\
    length (logger_handlers w') = length (logger_handlers w) + n /\
    NoDup (handler_id <$> logger_handlers w').
Proof.
  intros Hn Hsdk. revert w Hn. induction n as [|n IH]; intros w Hn Hall Hnd.
  - exists w. split; [reflexivity |]. split; [lia | done].
  - unfold no_credential in Hn.
    destruct (environ w !! "APPLICATIONINSIGHTS_CONNECTION_STRING")
      as [conn|] eqn:Henv; [|discriminate Hn].
    assert (conn <> "") as Hconn by (intros ->; discriminate Hn).
    cbn [init_repeatedly]. run_io.
    rewrite (init_with_credential sdk w conn Henv Hconn Hsdk Hall).
    match goal with
    | |- context [init_repeatedly sdk n ?w1] =>
        destruct (IH w1) as (w' & Hret & Hlen & Hnd')
    end.
    + unfold no_credential. simpl. rewrite Henv. by destruct conn.
    + unfold handlers_allocated in *. simpl. apply Forall_app. split.
      * eapply Forall_impl; [exact Hall |]. simpl. intros h Hh. lia.
      * apply Forall_singleton. simpl. lia.
    + simpl. rewrite fmap_app. apply NoDup_app. split; [done |]. split.
      * intros i Hi [->|Hin]%elem_of_cons; [|by apply not_elem_of_nil in Hin].
        apply list_elem_of_fmap in Hi as (h & Hid & Hh).
        unfold handlers_allocated in Hall. rewrite Forall_forall in Hall.
        specialize (Hall h Hh). simpl in Hid. lia.
      * apply NoDup_singleton.
    + exists w'. split; [exact Hret |]. split; [|done].
      rewrite Hlen. simpl. rewrite length_app. simpl. lia.
Qed.

Lemma init_repeatedly_attaches_witness :
  exists w',
    init_repeatedly sdk_ok 3 (at_import configured_env test_clock)
    = (Returns tt, w') /\
    length (logger_handlers w') = 3.
Proof.
  destruct (init_repeatedly_attaches sdk_ok 3
              (at_import configured_env test_clock))
    as (w' & Hret & Hlen & _).
  - reflexivity.
  - intros step. reflexivity.
  - apply Forall_nil_2.
  - apply NoDup_nil_2.
  - exists w'. split; [exact Hret | exact Hlen].
Defined.

End AppInsightsFacts.


(** ** sentry.py: initialisation and the capture wrappers *)
Module SentrySdkFacts.
Import Py Sentry SentrySdk.
Local Open Scope list_scope.

Section Sequences.

Variable sdk : sdk_call -> option exception.

(** *** Sequences of calls *)

Lemma made_app (l1 l2 : list sdk_call) :
  made sdk (l1 ++ l2) =
  made sdk l1 ++ match sequence_outcome sdk l1 with
                 | AppInsights.Returns _ => made sdk l2
                 | AppInsights.Raises _ => []
                 end.
Proof.
  induction l1 as [|c l1 IH]; [done |]. simpl.
  destruct (sdk c); [by rewrite app_nil_r | by rewrite IH].
Qed.

Lemma sequence_outcome_app (l1 l2 : list sdk_call) :
  sequence_outcome sdk (l1 ++ l2) =
  match sequence_outcome sdk l1 with
  | AppInsights.Returns _ => sequence_outcome sdk l2
  | AppInsights.Raises e => Raises e
  end.
Proof. induction l1 as [|c l1 IH]; [done |]. simpl. by destruct (sdk c). Qed.

Lemma made_prefix (cs : list sdk_call) : made sdk cs `prefix_of` cs.
Proof.
  induction cs as [|c cs IH]; [done |]. simpl. apply prefix_cons.
  destruct (sdk c); [apply prefix_nil | exact IH].
Qed.

Lemma made_all (cs : list sdk_call) :
  (forall c, c ∈ cs -> sdk c = None) ->
  made sdk cs = cs /\ sequence_outcome sdk cs = Returns tt.
Proof.
  induction cs as [|c cs IH]; [done |]. intros H. simpl.
  rewrite (H c) by apply list_elem_of_here.
  destruct IH as [-> ->]; [|done].
  intros c' Hc'. apply H. by apply list_elem_of_further.
Qed.

Lemma raised_by_last (cs : list sdk_call) (e : exception) :
  sequence_outcome sdk cs = Raises e ->
  exists c, last (made sdk cs) = Some c /\ sdk c = Some e.
Proof.
  induction cs as [|c cs IH]; [discriminate |]. simpl.
  destruct (sdk c) as [e'|] eqn:E.
  - intros [= <-]. by exists c.
  - intros H. destruct (IH H) as (c' & Hlast & Hc'). exists c'. split; [|done].
    destruct (made sdk cs); [discriminate Hlast | exact Hlast].
Qed.

(** *** The statements of the wrappers, as sequences of calls *)

Lemma performs_ret {A : Type} (a : A) : performs sdk (mret a) [] a.
Proof. intros [e pr cs]. unfold mret, run_ret. simpl. by rewrite app_nil_r. Qed.

Lemma performs_call (c : sdk_call) : performs sdk (call sdk c) [c] tt.
Proof. intros p. unfold call, record. simpl. by destruct (sdk c). Qed.

Lemma performs_bind {A B : Type} (m : run A) (f : A -> run B)
    (l1 l2 : list sdk_call) (a : A) (b : B) :
  performs sdk m l1 a -> performs sdk (f a) l2 b ->
  performs sdk (m ≫= f) (l1 ++ l2) b.
Proof.
  intros H1 H2 p. unfold mbind, run_bind. rewrite H1.
  rewrite made_app, sequence_outcome_app.
  destruct (sequence_outcome sdk l1) as [[]|e].
  - rewrite H2. simpl. by rewrite app_assoc.
  - by rewrite app_nil_r.
Qed.

Lemma performs_for_each {A : Type} (f : A -> sdk_call) (xs : list A) :
  performs sdk (for_each xs (fun x => call sdk (f x))) (map f xs) tt.
Proof.
  induction xs as [|x xs IH]; [apply performs_ret |].
  cbn [for_each map].
  apply (performs_bind _ _ [f x] (map f xs) tt tt); [apply performs_call | exact IH].
Qed.

Lemma performs_when_dict (d : option (gmap string value))
    (f : gmap string value -> sdk_call) :
  performs sdk (when_dict d (fun m => call sdk (f m)))
    match d with
    | Some m => if bool_decide (m = ∅) then [] else [f m]
    | None => []
    end tt.
Proof.
  unfold when_dict. destruct d as [m|]; [|apply performs_ret].
  destruct (bool_decide (m = ∅)); [apply performs_ret | apply performs_call].
Qed.

Lemma performs_when_items {V : Type} (d : option (list (string * V)))
    (f : string -> V -> sdk_call) :
  performs sdk (when_items d (fun key value => call sdk (f key value)))
    (map (fun kv => f (fst kv) (snd kv)) (default [] d)) tt.
Proof. unfold when_items. apply (performs_for_each (fun kv => f (fst kv) (snd kv))). Qed.

(** A scope block around a sequence of calls. When the push raises, it is
    the only call; otherwise the push, the calls made, the pop, and what the
    pop raises, if it does, replaces the outcome of the calls. *)
Lemma with_push_scope_performs {A : Type} (body : run A) (cs : list sdk_call)
    (a : A) (p : process) :
  performs sdk body cs a ->
  with_push_scope sdk body p =
  match sdk PushScope with
  | Some e =>
      (Raises e, mk_process (env p) (printed p) (sdk_calls p ++ [PushScope]))
  | None =>
      (match sdk PopScope with
       | Some e => Raises e
       | None =>
           match sequence_outcome sdk cs with
           | AppInsights.Returns _ => Returns a
           | AppInsights.Raises e => Raises e
           end
       end,
       mk_process (env p) (printed p)
         (sdk_calls p ++ PushScope :: made sdk cs ++ [PopScope]))
  end.
Proof.
  intros H. unfold with_push_scope. destruct (sdk PushScope); [done |].
  rewrite H. unfold record. simpl.
  f_equal. f_equal. by rewrite <- !app_assoc.
Qed.

Lemma capture_error_performs (error : exception)
    (context user : option (gmap string value))
    (tags : option (list (string * string)))
    (extra : option (list (string * value))) (level : string) :
  performs sdk
    (when_dict user (fun user => call sdk (ScopeSetUser user));;
     when_items tags (fun key value => call sdk (ScopeSetTag key value));;
     when_items extra (fun key value => call sdk (ScopeSetExtra key value));;
     when_dict context (fun context => call sdk (ScopeSetContext "custom" context));;
     call sdk (ScopeSetLevel level);;
     call sdk (CaptureException error))
    (capture_error_calls error context user tags extra level) tt.
Proof.
  unfold capture_error_calls.
  eapply performs_bind; [apply (performs_when_dict user ScopeSetUser) |].
  eapply performs_bind; [apply (performs_when_items tags ScopeSetTag) |].
  eapply performs_bind; [apply (performs_when_items extra ScopeSetExtra) |].
  eapply performs_bind;
    [apply (performs_when_dict context (ScopeSetContext "custom")) |].
  apply (performs_bind _ _ [ScopeSetLevel level] [CaptureException error] tt tt);
    apply performs_call.
Qed.

Lemma capture_message_performs (message level : string)
    (tags : option (list (string * string)))
    (extra : option (list (string * value))) :
  performs sdk
    (when_items tags (fun key value => call sdk (ScopeSetTag key value));;
     when_items extra (fun key value => call sdk (ScopeSetExtra key value));;
     call sdk (ScopeSetLevel level);;
     call sdk (CaptureMessage message))
    (capture_message_calls message level tags extra) tt.
Proof.
  unfold capture_message_calls.
  eapply performs_bind; [apply (performs_when_items tags ScopeSetTag) |].
  eapply performs_bind; [apply (performs_when_items extra ScopeSetExtra) |].
  apply (performs_bind _ _ [ScopeSetLevel level] [CaptureMessage message] tt tt);
    apply performs_call.
Qed.

End Sequences.

(** *** The wrappers *)

(** X19. Whatever the calls on the SDK do, [capture_error] first pushes a
    scope. When the push raises, that is its only call and what it raises:
    nothing is set, captured or popped. Otherwise it makes inside the scope
    a prefix of the calls [set_user] (when a user is given and not empty),
    [set_tag] and [set_extra] per item, [set_context] (when a context is
    given and not empty), [set_level], [capture_exception], up to the first
    that raises, and leaves the scope as its last call whether one raised or
    not. When leaving raises, [capture_error] raises that; otherwise it
    raises what the first raising call raised, and returns when none did. *)
Theorem capture_error_scope (sdk : sdk_call -> option exception)
    (error : exception) (context user : option (gmap string value))
    (tags : option (list (string * string)))
    (extra : option (list (string * value))) (level : string) (p : process) :
  let expected := capture_error_calls error context user tags extra level in
  let inner := made sdk expected in
  (forall e, sdk PushScope = Some e ->
     capture_error sdk error context user tags extra level p =
     (Raises e,
      mk_process (env p) (printed p) (sdk_calls p ++ [PushScope]))) /\
  (sdk PushScope = None ->
     capture_error sdk error context user tags extra level p =
     (match sdk PopScope with
      | Some e => Raises e
      | None => sequence_outcome sdk expected
      end,
      mk_process (env p) (printed p)
        (sdk_calls p ++ PushScope :: inner ++ [PopScope]))) /\
  inner `prefix_of` expected /\
  ((forall c, c ∈ expected -> sdk c = None) ->
   inner = expected /\ sequence_outcome sdk expected = Returns tt) /\
  (forall e, sequence_outcome sdk expected = Raises e ->
     exists c, last inner = Some c /\ sdk c = Some e).
Proof.
  intros expected inner. subst inner. split; [|split; [|split; [|split]]].
  - intros e He. unfold capture_error.
    rewrite (with_push_scope_performs sdk _ expected tt p)
      by apply capture_error_performs.
    by rewrite He.
  - intros Hpush. unfold capture_error.
    rewrite (with_push_scope_performs sdk _ expected tt p)
      by apply capture_error_performs.
    rewrite Hpush. destruct (sdk PopScope); [done |].
    by destruct (sequence_outcome sdk expected) as [[]|].
  - apply made_prefix.
  - apply made_all.
  - apply raised_by_last.
Qed.

Lemma capture_error_scope_witness :
  capture_error sdk_down AppInsights.boom None None
    (Some [("route", "/pay")]) None "error" (mk_process ∅ [] [])
  = (Raises (AppInsights.mk_exception "RuntimeError" "transport closed" true),
     mk_process ∅ [] [PushScope; ScopeSetTag "route" "/pay"; ScopeSetLevel "error";
                      CaptureException AppInsights.boom; PopScope]) /\
  capture_error sdk_without_hub AppInsights.boom None None
    (Some [("route", "/pay")]) None "error" (mk_process ∅ [] [])
  = (Raises (AppInsights.mk_exception "RuntimeError" "no hub" true),
     mk_process ∅ [] [PushScope]).
Proof.
  split.
  - destruct (capture_error_scope sdk_down AppInsights.boom None None
                (Some [("route", "/pay")]) None "error" (mk_process ∅ [] []))
      as (_ & Hrun & _).
    rewrite Hrun; reflexivity.
  - destruct (capture_error_scope sdk_without_hub AppInsights.boom None None
                (Some [("route", "/pay")]) None "error" (mk_process ∅ [] []))
      as (Hrun & _).
    apply Hrun. reflexivity.
Defined.

(** X20. Whatever the calls on the SDK do, [capture_message] first pushes a
    scope. When the push raises, that is its only call and what it raises.
    Otherwise it makes inside the scope a prefix of the calls [set_tag] and
    [set_extra] per item, [set_level], [capture_message], up to the first
    that raises, and leaves the scope as its last call whether one raised or
    not. When leaving raises, [capture_message] raises that; otherwise it
    raises what the first raising call raised, and returns when none did. *)
Theorem capture_message_scope (sdk : sdk_call -> option exception)
    (message level : string) (tags : option (list (string * string)))
    (extra : option (list (string * value))) (p : process) :
  let expected := capture_message_calls message level tags extra in
  let inner := made sdk expected in
  (forall e, sdk PushScope = Some e ->
     capture_message sdk message level tags extra p =
     (Raises e,
      mk_process (env p) (printed p) (sdk_calls p ++ [PushScope]))) /\
  (sdk PushScope = None ->
     capture_message sdk message level tags extra p =
     (match sdk PopScope with
      | Some e => Raises e
      | None => sequence_outcome sdk expected
      end,
      mk_process (env p) (printed p)
        (sdk_calls p ++ PushScope :: inner ++ [PopScope]))) /\
  inner `prefix_of` expected /\
  ((forall c, c ∈ expected -> sdk c = None) ->
   inner = expected /\ sequence_outcome sdk expected = Returns tt) /\
  (forall e, sequence_outcome sdk expected = Raises e ->
     exists c, last inner = Some c /\ sdk c = Some e).
Proof.
  intros expected inner. subst inner. split; [|split; [|split; [|split]]].
  - intros e He. unfold capture_message.
    rewrite (with_push_scope_performs sdk _ expected tt p)
      by apply capture_message_performs.
    by rewrite He.
  - intros Hpush. unfold capture_message.
    rewrite (with_push_scope_performs sdk _ expected tt p)
      by apply capture_message_performs.
    rewrite Hpush. destruct (sdk PopScope); [done |].
    by destruct (sequence_outcome sdk expected) as [[]|].
  - apply made_prefix.
  - apply made_all.
  - apply raised_by_last.
Qed.

Lemma capture_message_scope_witness :
  capture_message sdk_returns "deploy done" "info" None
    (Some [("build", VInt 42)]) (mk_process ∅ [] [])
  = (Returns tt,
     mk_process ∅ [] [PushScope; ScopeSetExtra "build" (VInt 42);
                      ScopeSetLevel "info"; CaptureMessage "deploy done";
                      PopScope]) /\
  capture_message sdk_bad_exit "deploy done" "info" None
    (Some [("build", VInt 42)]) (mk_process ∅ [] [])
  = (Raises (AppInsights.mk_exception "RuntimeError" "scope lost" true),
     mk_process ∅ [] [PushScope; ScopeSetExtra "build" (VInt 42);
                      ScopeSetLevel "info"; CaptureMessage "deploy done";
                      PopScope]).
Proof.
  split.
  - destruct (capture_message_scope sdk_returns "deploy done" "info" None
                (Some [("build", VInt 42)]) (mk_process ∅ [] []))
      as (_ & Hrun & _).
    rewrite Hrun; reflexivity.
  - destruct (capture_message_scope sdk_bad_exit "deploy done" "info" None
                (Some [("build", VInt 42)]) (mk_process ∅ [] []))
      as (_ & Hrun & _).
    rewrite Hrun; reflexivity.
Defined.

(** X21. Without a DSN in the environment (unset or empty), [init_sentry]
    prints one line and returns without a call on the SDK. With one, it
    makes exactly one call, [sentry_sdk.init], whose options carry the DSN,
    the environment ([SENTRY_ENVIRONMENT], else [NODE_ENV], else
    ["development"]), a trace and a profile sampling rate of 0.1 when that
    environment is ["production"] and of 1.0 otherwise, and the two filters
    of this module as [before_send] and [before_breadcrumb]; and what that
    call raises, [init_sentry] raises: nothing is caught. *)
Theorem init_sentry_registers_filters (sdk : sdk_call -> option exception)
    (p : process) :
  ((env p !! "SENTRY_DSN" = None \/ env p !! "SENTRY_DSN" = Some "") ->
   init_sentry sdk p =
   (Returns tt,
    mk_process (env p)
      (printed p ++ ["[Sentry] DSN not configured, error tracking disabled"])
      (sdk_calls p))) /\
  (forall d, env p !! "SENTRY_DSN" = Some d -> d <> "" ->
   exists options,
     init_sentry sdk p =
     (match sdk (Init options) with
      | None => Returns tt
      | Some e => Raises e
      end,
      mk_process (env p) (printed p) (sdk_calls p ++ [Init options])) /\
     dsn options = d /\
     environment options =
       default (default "development" (env p !! "NODE_ENV"))
               (env p !! "SENTRY_ENVIRONMENT") /\
     traces_sample_rate options = profiles_sample_rate options /\
     (environment options = "production" ->
      traces_sample_rate options = 0x1.999999999999ap-4%float) /\
     (environment options <> "production" ->
      traces_sample_rate options = 1%float) /\
     before_send options = before_send_filter /\
     before_breadcrumb options = before_breadcrumb_filter).
Proof.
  split.
  - intros H. unfold init_sentry, mbind, run_bind, getenv, print. simpl.
    by destruct H as [-> | ->].
  - intros d Hd Hne. unfold init_sentry, mbind, run_bind, getenv, getenv_default.
    simpl. rewrite Hd. destruct d as [|c d]; [done |].
    unfold call, record. simpl.
    match goal with |- context [Init ?o] => exists o end.
    split; [by destruct (sdk _) |]. simpl.
    split; [done |]. split; [done |]. split; [done |].
    split; [by intros -> | split; [|done]].
    intros Hprod. apply String.eqb_neq in Hprod. by rewrite Hprod.
Qed.

Lemma init_sentry_registers_filters_witness :
  init_sentry sdk_returns (mk_process ∅ [] [])
  = (Returns tt,
     mk_process ∅ ["[Sentry] DSN not configured, error tracking disabled"] []) /\
  exists options,
    init_sentry sdk_down
      (mk_process {[ "SENTRY_DSN" := "nonsense"; "NODE_ENV" := "production" ]} [] [])
    = (Raises (AppInsights.mk_exception "BadDsn" "Unsupported scheme ''" true),
       mk_process {[ "SENTRY_DSN" := "nonsense"; "NODE_ENV" := "production" ]} []
         [Init options]) /\
    traces_sample_rate options = 0x1.999999999999ap-4%float.
Proof.
  split.
  - apply (init_sentry_registers_filters sdk_returns (mk_process ∅ [] [])).
    by left.
  - destruct (init_sentry_registers_filters sdk_down
                (mk_process {[ "SENTRY_DSN" := "nonsense";
                               "NODE_ENV" := "production" ]} [] []))
      as [_ H].
    destruct (H "nonsense") as (options & Hrun & _ & Henv & _ & Hrate & _);
      [reflexivity | discriminate |].
    exists options. split; [exact Hrun |]. apply Hrate. rewrite Henv. reflexivity.
Defined.

End SentrySdkFacts.
